(* ===== verification/_CoqProject ===== *)
-Q . S2P
Prelude.v
Session.v
Tempo.v
Utils.v
Bridge.v
PatternState.v
Control.v
System.v
