(* ===== verification/Prelude.v ===== *)
(** * A verification development of strudel-mcp

    strudel-mcp is an MCP server that drives the Strudel live-coding editor
    (strudel.cc) in a headless Chromium through Puppeteer.  Its parts:

    - [src/src/browser.js]: the browser session, i.e. the module variables
      [browser] and [page], with [launchBrowser], [getPage], [closeBrowser],
      [restartBrowser], [isBrowserAlive] and [getConfig];
    - [src/src/strudel.js]: the bridge to the page.  [executePattern],
      [stopPlayback], [startPlayback], [getCurrentCode], [isPlaying] and
      [setTempo] each obtain the page from [getPage] and run scripts and key
      presses in it;
    - [src/src/state.js]: the in-process pattern state (the current code,
      bpm, playing flag, a 50-entry undo history and the last modification
      time);
    - [src/src/utils.js]: helpers, among them [bpmToCps] and [cpsToBpm];
    - [src/src/tools/control.js]: the playback tools.  Each one calls the
      bridge and mirrors the outcome into state.js;
    - [src/src/tools/persistence.js] and [src/src/index.js]: file storage
      of patterns, and the MCP dispatcher.

    ** Files

    - [Prelude] (this file) holds:
      - the result type [res] of an [async] call;
      - the state-and-error monad [ST] with its notations in [st_scope];
      - three program logics on [ST]: invariants [st_preserves], triples
        [st_hoare] with an exceptional postcondition, and the relational
        [st_rel];
      - printing of numbers, and the hint databases [strudel] and
        [strudel_rw] with the tactic [st_preserves_t].
    - [Session] (Module [Session]) models browser.js.  The [World] record
      holds:
      - the module variables [browser] and [page];
      - what the remote browser holds: the allocator of browser and page
        ids, the open browsers, the owner of each page, the crashed pages
        and the document of each page;
      - the environment's answer to each launch attempt, and a log of
        every driver call.
      Each Puppeteer call is a driver primitive ([drv_launch],
      [drv_newPage], [drv_goto], [drv_evaluate], ...).  Each function of
      browser.js is one definition with the name it has in the code.  The
      page scripts of strudel.js run on a [Dom] record through
      [run_script].  The typeclass [PageProvider] is the interface
      strudel.js relies on: [getPage]'s contract.
    - [Tempo] (Module [Tempo]) models [bpmToCps] and [cpsToBpm] on Rocq's
      primitive binary64 floats, which are JavaScript numbers.
    - [Utils] (Module [Utils]) models [validateCode] (the parenthesis loop
      with its [break], the quote counts) and [stackPatterns] on Rocq
      strings, against a declarative notion of balanced parentheses.
    - [Bridge] (Module [Bridge]) models strudel.js.  Its operations are
      proved once against any [PageProvider] (Section [Laws]), then for the
      instance [session_provider], which is browser.js's [getPage].
    - [PatternState] (Module [PatternState]) models state.js.  The state
      object and the history array live in a heap ([sw_heap]), because
      [getState()] returns a shallow copy that shares the array.
    - [Control] (Module [Control]) models control.js on the pair of the
      session world and the state world.
    - [System] (Module [System]) is the step relation of the whole program:
      - any call of any operation above, or a page that stops answering;
      - reachability from the process start, with the invariant of both
        worlds proved by rule induction.

    ** Theorems

    - Session, for browser.js:
      - [launchBrowser] recovers from a dead page;
      - it reuses a live session;
      - its errors carry the launch prefix;
      - [closeBrowser] is idempotent;
      - [restartBrowser] installs a fresh session;
      - [isBrowserAlive] reports liveness;
      - a failed navigation keeps a blank page as the session, a failed
        [newPage] leaves half a session, and recovery leaks the old
        browser process.
    - Bridge, for strudel.js:
      - the exact sequence of driver calls of each operation;
      - the round trip [executePattern] then [getCurrentCode];
      - the error paths;
      - the [''] and [false] fallbacks of the introspection calls;
      - [setTempo]'s cps;
      - since [getPage] never probes the page it stored, a dead page is
        never recovered.
    - Utils, for utils.js:
      - [validateCode]'s verdict is balanced parentheses plus even quote
        counts;
      - [stackPatterns] keeps code balanced when a stack ends in [)], and
        breaks it when any other character follows the stack;
      - [validateCode] counts the apostrophes of comments.
    - Tempo:
      - the round trip [cpsToBpm (bpmToCps n) === n] holds for exactly
        289 of the integer tempos 1..300;
      - the eleven failures are named.
    - PatternState, for state.js:
      - the history never exceeds 50 entries;
      - it refines an unbounded abstract history (its last 50 entries);
      - [undo] does not walk back;
      - snapshots alias the live array.
    - Control, for control.js:
      - the tools mirror the bridge's outcome into state.js;
      - state's [isPlaying] can disagree with the page's.
    - System: the invariant of every reachable state.

    ** Bounds

    There is no fuel: every operation is straight-line code over [ST],
    and [execute_all] and [run_ops] recurse on the list of calls.  The
    tempo theorem covers the integer tempos 1..300, the range a live coder
    uses; it is decided by [vm_compute] over that range.  The history bound
    is the code's constant 50.  Timeouts and viewport sizes are binary
    numbers ([N]).

    ** Not modelled

    - persistence.js: file I/O on the JSON pattern store.
    - index.js: the MCP request dispatcher and its JSON schemas, which only
      route requests to the functions above.
    - the other helpers of utils.js: [generateCodeFromDescription],
      [modifyCode] and [formatCode] (keyword and regex rewriting), the
      pattern-file format ([createPatternFile], [extractCode],
      [extractMetadata]) and [debug].
    - the parsing of environment variables in browser.js's [config].  The
      [Config] record takes the parsed values.
    - console logging.
    - Strudel's own scheduler inside the page.  A page is a [Dom] record
      with the fields the scripts read and write.
    - Time: a wait is a logged action.
    - Concurrent calls: JavaScript runs one call at a time between awaits,
      and the model interleaves whole operations. *)

From stdpp Require Import base strings gmap list.
From Stdlib Require Import DecimalString DecimalN NArith.

(** ** Results of a JavaScript computation

    Every operation of the repository is an [async] function that either
    resolves to a value or rejects with an [Error]; the only part of an
    [Error] the code ever reads is its [message], which it wraps with a
    prefix ([`Browser launch failed: ${error.message}`]).  A rejected call
    is therefore [Err msg]. *)
Inductive res (A : Type) : Type :=
  | Ok (a : A)
  | Err (msg : string).
Arguments Ok {A} a.
Arguments Err {A} msg.

(** ** The state-and-error monad

    [ST S A] threads the mutable state [S] (module-level [let] variables,
    the remote browser) through an operation that may throw.  An exception
    does NOT roll the state back: assignments made before the [throw] stay,
    exactly as in JavaScript. *)
Definition ST (S A : Type) : Type := S -> res A * S.

Section Monad.
Context {S : Type}.

Definition st_ret {A} (a : A) : ST S A := fun s => (Ok a, s).

Definition st_bind {A B} (m : ST S A) (k : A -> ST S B) : ST S B :=
  fun s => match m s with
           | (Ok a, s') => k a s'
           | (Err e, s') => (Err e, s')
           end.

Definition st_get : ST S S := fun s => (Ok s, s).
Definition st_put (s : S) : ST S unit := fun _ => (Ok tt, s).
Definition st_modify (f : S -> S) : ST S unit := fun s => (Ok tt, f s).
Definition st_gets {A} (f : S -> A) : ST S A := fun s => (Ok (f s), s).
Definition st_throw {A} (msg : string) : ST S A := fun s => (Err msg, s).

(** [try { m } catch (error) { h(error.message) }] *)
Definition st_catch {A} (m : ST S A) (h : string -> ST S A) : ST S A :=
  fun s => match m s with
           | (Ok a, s') => (Ok a, s')
           | (Err e, s') => h e s'
           end.

(** [try { m } catch (error) { throw new Error(prefix + error.message) }] *)
Definition st_rethrow {A} (prefix : string) (m : ST S A) : ST S A :=
  st_catch m (fun e => st_throw (prefix +:+ e)).

Definition st_run_value {A} (m : ST S A) (s : S) : res A := fst (m s).
Definition st_run_state {A} (m : ST S A) (s : S) : S := snd (m s).
End Monad.

Declare Scope st_scope.
Delimit Scope st_scope with st.
Notation "'let*' x ':=' c1 'in' c2" := (st_bind c1 (fun x => c2))
  (at level 10, x pattern, c1 at level 100, c2 at level 200) : st_scope.
Notation "c1 ;;; c2" := (st_bind c1 (fun _ => c2))
  (at level 100, right associativity) : st_scope.
Notation "'ret' a" := (st_ret a) (at level 10, a at level 9) : st_scope.

(** ** Monad laws and evaluation lemmas *)
Section MonadLemmas.
Context {S : Type}.

Lemma st_bind_ret_l {A B} (a : A) (k : A -> ST S B) s :
  st_bind (st_ret a) k s = k a s.
Proof. reflexivity. Qed.

Lemma st_bind_ret_r {A} (m : ST S A) s : st_bind m st_ret s = m s.
Proof. unfold st_bind, st_ret. by destruct (m s) as [[] ?]. Qed.

Lemma st_bind_assoc {A B C} (m : ST S A) (k : A -> ST S B) (k' : B -> ST S C) s :
  st_bind (st_bind m k) k' s = st_bind m (fun a => st_bind (k a) k') s.
Proof. unfold st_bind. by destruct (m s) as [[] ?]. Qed.

Lemma st_bind_Ok {A B} (m : ST S A) (k : A -> ST S B) s a s' :
  m s = (Ok a, s') -> st_bind m k s = k a s'.
Proof. unfold st_bind. by intros ->. Qed.

Lemma st_bind_Err {A B} (m : ST S A) (k : A -> ST S B) s e s' :
  m s = (Err e, s') -> st_bind m k s = (Err e, s').
Proof. unfold st_bind. by intros ->. Qed.

Lemma st_catch_Ok {A} (m : ST S A) h s a s' :
  m s = (Ok a, s') -> st_catch m h s = (Ok a, s').
Proof. unfold st_catch. by intros ->. Qed.

Lemma st_catch_Err {A} (m : ST S A) h s e s' :
  m s = (Err e, s') -> st_catch m h s = h e s'.
Proof. unfold st_catch. by intros ->. Qed.

(** A handler that never throws makes the whole [try] total. *)
Lemma st_catch_total {A} (m : ST S A) (h : string -> ST S A) s :
  (forall e s', exists a s'', h e s' = (Ok a, s'')) ->
  exists a s', st_catch m h s = (Ok a, s').
Proof.
  intros Hh. unfold st_catch. destruct (m s) as [[a|e] s']; eauto.
Qed.

(** A wrapped rejection carries the prefix. *)
Lemma st_rethrow_Err {A} prefix (m : ST S A) s e s' :
  m s = (Err e, s') -> st_rethrow prefix m s = (Err (prefix +:+ e), s').
Proof. unfold st_rethrow, st_catch. by intros ->. Qed.

(** Every rejection of a wrapped operation carries the prefix. *)
Lemma st_rethrow_Err_inv {A} prefix (m : ST S A) s e s' :
  st_rethrow prefix m s = (Err e, s') -> exists e', e = prefix +:+ e'.
Proof.
  unfold st_rethrow, st_catch, st_throw. destruct (m s) as [[a|e0] s0]; [done|].
  intros [= <- _]. by exists e0.
Qed.

Lemma st_rethrow_Ok {A} prefix (m : ST S A) s a s' :
  m s = (Ok a, s') -> st_rethrow prefix m s = (Ok a, s').
Proof. unfold st_rethrow, st_catch. by intros ->. Qed.

(** An operation preserves a predicate on the state whether it resolves
    or rejects. *)
Definition st_preserves {A} (P : S -> Prop) (m : ST S A) : Prop :=
  forall s, P s -> P (snd (m s)).

Lemma st_preserves_ret {A} P (a : A) : st_preserves P (st_ret a).
Proof. by intros s. Qed.

Lemma st_preserves_throw {A} P e : st_preserves P (@st_throw S A e).
Proof. by intros s. Qed.

Lemma st_preserves_bind {A B} P (m : ST S A) (k : A -> ST S B) :
  st_preserves P m -> (forall a, st_preserves P (k a)) ->
  st_preserves P (st_bind m k).
Proof.
  intros Hm Hk s Hs. unfold st_bind.
  specialize (Hm s Hs). destruct (m s) as [[a|e] s']; simpl in *; auto.
  by apply Hk.
Qed.

Lemma st_preserves_catch {A} P (m : ST S A) h :
  st_preserves P m -> (forall e, st_preserves P (h e)) ->
  st_preserves P (st_catch m h).
Proof.
  intros Hm Hh s Hs. unfold st_catch.
  specialize (Hm s Hs). destruct (m s) as [[a|e] s']; simpl in *; auto.
  by apply Hh.
Qed.

Lemma st_preserves_rethrow {A} P prefix (m : ST S A) :
  st_preserves P m -> st_preserves P (st_rethrow prefix m).
Proof.
  intros Hm. apply st_preserves_catch; [done|]. intros e. apply st_preserves_throw.
Qed.

Lemma st_preserves_get P : st_preserves P (@st_get S).
Proof. by intros s. Qed.

Lemma st_preserves_gets {A} P (f : S -> A) : st_preserves P (st_gets f).
Proof. by intros s. Qed.

(** *** Hoare triples with an exceptional postcondition

    [st_hoare P m Q E]: from a state satisfying [P], [m] either resolves
    with [a] in a state satisfying [Q a], or rejects with [e] in a state
    satisfying [E e]. *)
Definition st_hoare {A} (P : S -> Prop) (m : ST S A)
    (Q : A -> S -> Prop) (E : string -> S -> Prop) : Prop :=
  forall s, P s -> match m s with
                   | (Ok a, s') => Q a s'
                   | (Err e, s') => E e s'
                   end.

Lemma hoare_ret {A} P (a : A) Q E :
  (forall s, P s -> Q a s) -> st_hoare P (st_ret a) Q E.
Proof. intros H s Hs. by apply H. Qed.

Lemma hoare_throw {A} P e (Q : A -> S -> Prop) E :
  (forall s, P s -> E e s) -> st_hoare P (st_throw e) Q E.
Proof. intros H s Hs. by apply H. Qed.

Lemma hoare_get P Q E :
  (forall s, P s -> Q s s) -> st_hoare P st_get Q E.
Proof. intros H s Hs. by apply H. Qed.

Lemma hoare_gets {A} P (f : S -> A) Q E :
  (forall s, P s -> Q (f s) s) -> st_hoare P (st_gets f) Q E.
Proof. intros H s Hs. by apply H. Qed.

Lemma hoare_modify P f Q E :
  (forall s, P s -> Q tt (f s)) -> st_hoare P (st_modify f) Q E.
Proof. intros H s Hs. by apply H. Qed.

Lemma hoare_bind {A B} P (m : ST S A) (k : A -> ST S B) R Q E :
  st_hoare P m R E -> (forall a, st_hoare (R a) (k a) Q E) ->
  st_hoare P (st_bind m k) Q E.
Proof.
  intros Hm Hk s Hs. unfold st_bind. specialize (Hm s Hs).
  destruct (m s) as [[a|e] s']; [by apply Hk|done].
Qed.

Lemma hoare_catch {A} P (m : ST S A) h Q F E :
  st_hoare P m Q F -> (forall e, st_hoare (F e) (h e) Q E) ->
  st_hoare P (st_catch m h) Q E.
Proof.
  intros Hm Hh s Hs. unfold st_catch. specialize (Hm s Hs).
  destruct (m s) as [[a|e] s']; [done|by apply Hh].
Qed.

Lemma hoare_rethrow {A} P prefix (m : ST S A) Q E :
  st_hoare P m Q (fun e => E (prefix +:+ e)) ->
  st_hoare P (st_rethrow prefix m) Q E.
Proof.
  intros Hm. eapply hoare_catch; [exact Hm|]. intros e. by apply hoare_throw.
Qed.

Lemma hoare_conseq {A} P P' (m : ST S A) Q Q' E E' :
  st_hoare P' m Q' E' ->
  (forall s, P s -> P' s) ->
  (forall a s, Q' a s -> Q a s) ->
  (forall e s, E' e s -> E e s) ->
  st_hoare P m Q E.
Proof.
  intros Hm HP HQ HE s Hs. specialize (Hm s (HP s Hs)).
  destruct (m s) as [[a|e] s']; auto.
Qed.

Lemma hoare_of_preserves {A} I (m : ST S A) :
  st_preserves I m -> st_hoare I m (fun _ => I) (fun _ => I).
Proof.
  intros Hm s Hs. specialize (Hm s Hs). by destruct (m s) as [[]].
Qed.

Lemma hoare_snd {A} P (m : ST S A) (I : S -> Prop) s :
  st_hoare P m (fun _ => I) (fun _ => I) -> P s -> I (snd (m s)).
Proof. intros Hm Hs. specialize (Hm s Hs). by destruct (m s) as [[]]. Qed.

Lemma st_bind_get {A} (k : S -> ST S A) s : st_bind st_get k s = k s s.
Proof. reflexivity. Qed.

Lemma preserves_of_hoare {A} I (m : ST S A) :
  st_hoare I m (fun _ => I) (fun _ => I) -> st_preserves I m.
Proof.
  intros Hm s Hs. specialize (Hm s Hs). by destruct (m s) as [[]].
Qed.

(** A triple whose pre- and postconditions also carry a frame [F]. *)
Lemma hoare_preserves_frame {A} I (F : S -> Prop) (m : ST S A) :
  (forall s, I s -> F s -> F (snd (m s))) -> st_preserves I m ->
  st_hoare (fun s => I s /\ F s) m (fun _ s => I s /\ F s) (fun _ s => I s /\ F s).
Proof.
  intros HF Hm s [HI HFs]. specialize (HF s HI HFs). specialize (Hm s HI).
  by destruct (m s) as [[]].
Qed.

(** *** Relations between the state before and after an operation

    [st_rel I R m]: from a state satisfying the invariant [I], the state
    after [m] is related to the state before by [R]; with [R] a preorder
    this composes along [let*]. *)
Definition st_rel {A} (I : S -> Prop) (R : S -> S -> Prop) (m : ST S A) : Prop :=
  forall s, I s -> R s (snd (m s)).

Section Rel.
Context (I : S -> Prop) (R : S -> S -> Prop).
Context (R_refl : forall s, R s s) (R_trans : forall s1 s2 s3, R s1 s2 -> R s2 s3 -> R s1 s3).

Lemma st_rel_ret {A} (a : A) : st_rel I R (st_ret a).
Proof. intros s _. apply R_refl. Qed.

Lemma st_rel_throw {A} e : st_rel I R (@st_throw S A e).
Proof. intros s _. apply R_refl. Qed.

Lemma st_rel_get : st_rel I R st_get.
Proof. intros s _. apply R_refl. Qed.

Lemma st_rel_gets {A} (f : S -> A) : st_rel I R (st_gets f).
Proof. intros s _. apply R_refl. Qed.

Lemma st_rel_bind {A B} (m : ST S A) (k : A -> ST S B) :
  st_preserves I m -> st_rel I R m -> (forall a, st_rel I R (k a)) ->
  st_rel I R (st_bind m k).
Proof.
  intros HI Hm Hk s Hs. unfold st_bind.
  specialize (HI s Hs). specialize (Hm s Hs).
  destruct (m s) as [[a|e] s']; simpl in *; [|done].
  eapply R_trans; [exact Hm|]. by apply Hk.
Qed.

Lemma st_rel_catch {A} (m : ST S A) h :
  st_preserves I m -> st_rel I R m -> (forall e, st_rel I R (h e)) ->
  st_rel I R (st_catch m h).
Proof.
  intros HI Hm Hh s Hs. unfold st_catch.
  specialize (HI s Hs). specialize (Hm s Hs).
  destruct (m s) as [[a|e] s']; simpl in *; [done|].
  eapply R_trans; [exact Hm|]. by apply Hh.
Qed.

Lemma st_rel_rethrow {A} prefix (m : ST S A) :
  st_preserves I m -> st_rel I R m -> st_rel I R (st_rethrow prefix m).
Proof.
  intros HI Hm. apply st_rel_catch; [done..|]. intros e. apply st_rel_throw.
Qed.
End Rel.
End MonadLemmas.

(** ** Decimal printing of naturals (JavaScript template literals) *)
Definition string_of_N (n : N) : string :=
  NilEmpty.string_of_uint (N.to_uint n).

Lemma string_of_N_inj n m : string_of_N n = string_of_N m -> n = m.
Proof.
  unfold string_of_N. intros H.
  apply (f_equal NilEmpty.uint_of_string) in H. rewrite !NilEmpty.usu in H.
  injection H as H. by apply Unsigned.to_uint_inj.
Qed.

(** ** Strings *)
Lemma substring_len_0 n (s : string) : String.substring n 0 s = "".
Proof. revert n. induction s as [|c s IH]; intros [|n]; simpl; auto. Qed.

Lemma string_app_nil_r (s : string) : s +:+ "" = s.
Proof. induction s as [|c s IH]; [done|]. exact (f_equal (String c) IH). Qed.

(** ** Automation *)
Create HintDb strudel discriminated.
Create Rewrite HintDb strudel_rw.
#[export] Hint Resolve st_preserves_ret st_preserves_throw st_preserves_get
  st_preserves_gets st_preserves_rethrow : strudel.
#[export] Hint Rewrite @st_bind_ret_l @st_bind_assoc : strudel_rw.

(** Unfold the monad's plumbing and compute the pure parts. *)
Ltac st_unfold :=
  unfold st_bind, st_catch, st_rethrow, st_ret, st_get, st_put, st_modify,
    st_gets, st_throw in *.

(** Decompose a goal [st_preserves P (let* ... in ...)] into one goal per
    primitive. *)
Ltac st_preserves_t :=
  repeat first
    [ solve [eauto with strudel]
    | apply st_preserves_bind; [|intros ?]
    | apply st_preserves_catch; [|intros ?]
    | apply st_preserves_rethrow ].
