(* ===== verification/Session.v ===== *)
(** * Session: the browser session manager of [src/src/browser.js]

    The module-level singletons [browser] and [page] of browser.js, the
    remote side they point to (browser processes, pages, documents), the
    puppeteer calls the module issues, and the five exported operations
    [launchBrowser], [getPage], [closeBrowser], [restartBrowser],
    [isBrowserAlive] (plus [getConfig]).  The scripts passed to
    [page.evaluate] by browser.js and strudel.js are modelled here too,
    since they run against the page's document. *)

From S2P Require Import Prelude.
From stdpp Require Import base strings gmap list.
From Stdlib Require Import PrimFloat NArith.

Open Scope st_scope.

Module Session.

(** ** Configuration (browser.js lines 22-28) *)
Record Config := mkConfig {
  cfg_url : string;
  cfg_headless : bool;
  cfg_width : N;
  cfg_height : N;
  cfg_debug : bool;
}.

(** ** The page's document, as far as the evaluated scripts observe it *)
Record Dom := mkDom {
  dom_editor : bool;             (** [document.querySelector('.cm-editor')] *)
  dom_view : option string;      (** [editorElement.cmView?.view], with its document text *)
  dom_textarea : option string;  (** [document.querySelector('textarea')], with its value *)
  dom_playing : bool;            (** an element matches [[data-playing="true"]] *)
  dom_setcps : bool;             (** the page defines [setcps] *)
  dom_cps : option float;        (** the last value the page's [setcps] received *)
}.

(** A freshly opened tab ([about:blank]). *)
Definition blank_dom : Dom := mkDom false None None false false None.

(** CodeMirror's change [{from, to, insert}] on a document. *)
Definition cm_replace (from to : nat) (insert doc : string) : string :=
  String.substring 0 from doc +:+ insert +:+ String.substring to (String.length doc - to) doc.

(** The functions strudel.js and browser.js pass to [page.evaluate]. *)
Inductive Script : Type :=
  | SProbe                       (** [() => true] (browser.js 39, 134) *)
  | SSetContent (code : string)  (** strudel.js 24-50 *)
  | SGetContent                  (** strudel.js 145-157 *)
  | SQueryPlaying                (** strudel.js 175-179 *)
  | SSetcps (cycles : float).    (** strudel.js 205-212 *)

Inductive JsVal : Type :=
  | VUndef
  | VBool (b : bool)
  | VStr (s : string).

Definition editor_not_found : string := "Editor not found".

(** Running a script in the page: its result (or the [Error] it throws)
    and the document afterwards. *)
Definition run_script (s : Script) (d : Dom) : res JsVal * Dom :=
  match s with
  | SProbe => (Ok (VBool true), d)
  | SSetContent code =>
      if dom_editor d then
        match dom_view d with
        | Some doc =>
            (Ok VUndef, mkDom (dom_editor d) (Some (cm_replace 0 (String.length doc) code doc))
                              (dom_textarea d) (dom_playing d) (dom_setcps d) (dom_cps d))
        | None =>
            match dom_textarea d with
            | Some _ =>
                (Ok VUndef, mkDom (dom_editor d) None (Some code)
                                  (dom_playing d) (dom_setcps d) (dom_cps d))
            | None => (Ok VUndef, d)
            end
        end
      else (Err editor_not_found, d)
  | SGetContent =>
      if dom_editor d then
        match dom_view d with
        | Some doc => (Ok (VStr doc), d)
        | None =>
            match dom_textarea d with
            | Some v => (Ok (VStr (if String.eqb v "" then "" else v)), d)
            | None => (Ok (VStr ""), d)
            end
        end
      else (Ok (VStr ""), d)
  | SQueryPlaying => (Ok (VBool (dom_playing d)), d)
  | SSetcps c =>
      (* [try { eval(`setcps(${cycles})`) } catch (e) { console.error(...) }] *)
      if dom_setcps d
      then (Ok VUndef, mkDom (dom_editor d) (dom_view d) (dom_textarea d)
                             (dom_playing d) (dom_setcps d) (Some c))
      else (Ok VUndef, d)
  end.

(** ** The environment's answer to a [launchBrowser] attempt

    Which step of the launch sequence fails, or the document the
    navigation lands on. *)
Inductive LaunchOutcome : Type :=
  | FailLaunch (msg : string)      (** [puppeteer.launch] rejects *)
  | FailNewPage (msg : string)     (** [browser.newPage] rejects *)
  | FailUserAgent (msg : string)   (** [page.setUserAgent] rejects *)
  | FailGoto (msg : string)        (** navigation error or 30 s timeout *)
  | Navigate (d : Dom).            (** the page reached network idle on [d] *)

Inductive Headless : Type := HeadlessNew | HeadlessOff.

Record LaunchOptions := mkLaunchOptions {
  lo_headless : Headless;
  lo_args : list string;
  lo_viewport : N * N;
}.

(** ** Driver calls issued by the program, in order *)
Inductive Action : Type :=
  | ALaunch (o : LaunchOptions)
  | ANewPage (b : nat)
  | ASetUserAgent (p : nat) (ua : string)
  | AGoto (p : nat) (url : string) (wait_until : string) (timeout : N)
  | AWaitForSelector (p : nat) (sel : string) (timeout : N)
  | AEvaluate (p : nat) (s : Script)
  | AKeyDown (p : nat) (key : string)
  | AKeyPress (p : nat) (key : string)
  | AKeyUp (p : nat) (key : string)
  | AWaitForTimeout (p : nat) (ms : N)
  | ACloseBrowser (b : nat).

(** ** The world: module state of browser.js and the remote browser *)
Record World := mkWorld {
  w_config : Config;                   (** [const config] *)
  w_browser : option nat;              (** [let browser] *)
  w_page : option nat;                 (** [let page] *)
  w_next : nat;                        (** next fresh handle *)
  w_open : gset nat;                   (** browser processes not closed *)
  w_owner : gmap nat nat;              (** page -> browser that opened it *)
  w_crashed : gset nat;                (** pages that stopped answering *)
  w_dom : gmap nat Dom;                (** each page's document *)
  w_plan : gmap nat LaunchOutcome;     (** how each launched browser's setup goes *)
  w_attempts : nat;                    (** [puppeteer.launch] calls so far *)
  w_env : nat -> LaunchOutcome;        (** how the k-th launch attempt goes *)
  w_log : list Action;                 (** driver calls, oldest first *)
}.

Abbreviation M := (ST World).

(** Field updates. *)
Definition set_browser_w (b : option nat) (w : World) : World :=
  mkWorld (w_config w) b (w_page w) (w_next w) (w_open w) (w_owner w) (w_crashed w)
          (w_dom w) (w_plan w) (w_attempts w) (w_env w) (w_log w).
Definition set_page_w (p : option nat) (w : World) : World :=
  mkWorld (w_config w) (w_browser w) p (w_next w) (w_open w) (w_owner w) (w_crashed w)
          (w_dom w) (w_plan w) (w_attempts w) (w_env w) (w_log w).
Definition log_w (a : Action) (w : World) : World :=
  mkWorld (w_config w) (w_browser w) (w_page w) (w_next w) (w_open w) (w_owner w)
          (w_crashed w) (w_dom w) (w_plan w) (w_attempts w) (w_env w) (w_log w ++ [a]).
Definition set_dom_w (p : nat) (d : Dom) (w : World) : World :=
  mkWorld (w_config w) (w_browser w) (w_page w) (w_next w) (w_open w) (w_owner w)
          (w_crashed w) (<[p:=d]> (w_dom w)) (w_plan w) (w_attempts w) (w_env w) (w_log w).
Definition close_w (b : nat) (w : World) : World :=
  mkWorld (w_config w) (w_browser w) (w_page w) (w_next w) (w_open w ∖ {[b]}) (w_owner w)
          (w_crashed w) (w_dom w) (w_plan w) (w_attempts w) (w_env w) (w_log w).
(** [puppeteer.launch] resolving: a new browser process [w_next]. *)
Definition spawn_browser_w (o : LaunchOutcome) (w : World) : World :=
  mkWorld (w_config w) (w_browser w) (w_page w) (S (w_next w)) ({[w_next w]} ∪ w_open w)
          (w_owner w) (w_crashed w) (w_dom w) (<[w_next w:=o]> (w_plan w))
          (S (w_attempts w)) (w_env w) (w_log w).
(** [puppeteer.launch] rejecting: only the attempt is counted. *)
Definition count_attempt_w (w : World) : World :=
  mkWorld (w_config w) (w_browser w) (w_page w) (w_next w) (w_open w) (w_owner w)
          (w_crashed w) (w_dom w) (w_plan w) (S (w_attempts w)) (w_env w) (w_log w).
(** [browser.newPage] resolving: a new blank tab [w_next] of browser [b]. *)
Definition spawn_page_w (b : nat) (w : World) : World :=
  mkWorld (w_config w) (w_browser w) (w_page w) (S (w_next w)) (w_open w)
          (<[w_next w:=b]> (w_owner w)) (w_crashed w) (<[w_next w:=blank_dom]> (w_dom w))
          (w_plan w) (w_attempts w) (w_env w) (w_log w).
(** Environment event: page [p] stops answering (crash, navigation away). *)
Definition crash_w (p : nat) (w : World) : World :=
  mkWorld (w_config w) (w_browser w) (w_page w) (w_next w) (w_open w) (w_owner w)
          ({[p]} ∪ w_crashed w) (w_dom w) (w_plan w) (w_attempts w) (w_env w) (w_log w).

(** A page answers the driver when its browser is open and it has not
    crashed. *)
Definition page_alive (w : World) (p : nat) : bool :=
  match w_owner w !! p with
  | Some b => bool_decide (b ∈ w_open w) && bool_decide (p ∉ w_crashed w)
  | None => false
  end.

Definition plan_of (w : World) (p : nat) : option LaunchOutcome :=
  b ← w_owner w !! p; w_plan w !! b.

(** The driver's rejection for a call on a closed or crashed target. *)
Definition target_closed : string := "Protocol error: Target closed.".
Definition selector_timeout : string :=
  "Waiting for selector `.cm-editor` failed: Waiting failed: 10000ms exceeded".

(** ** Puppeteer calls *)
Definition emit (a : Action) : M unit := st_modify (log_w a).

Definition require_alive (p : nat) : M unit :=
  let* w := st_get in if page_alive w p then ret tt else st_throw target_closed.

Definition drv_launch (o : LaunchOptions) : M nat :=
  emit (ALaunch o) ;;;
  let* w := st_get in
  match w_env w (w_attempts w) with
  | FailLaunch m => st_modify count_attempt_w ;;; st_throw m
  | out => st_modify (spawn_browser_w out) ;;; ret (w_next w)
  end.

Definition drv_newPage (b : nat) : M nat :=
  emit (ANewPage b) ;;;
  let* w := st_get in
  if bool_decide (b ∈ w_open w) then
    match w_plan w !! b with
    | Some (FailNewPage m) => st_throw m
    | _ => st_modify (spawn_page_w b) ;;; ret (w_next w)
    end
  else st_throw target_closed.

Definition drv_setUserAgent (p : nat) (ua : string) : M unit :=
  emit (ASetUserAgent p ua) ;;;
  require_alive p ;;;
  let* w := st_get in
  match plan_of w p with
  | Some (FailUserAgent m) => st_throw m
  | _ => ret tt
  end.

Definition drv_goto (p : nat) (url wait_until : string) (timeout : N) : M unit :=
  emit (AGoto p url wait_until timeout) ;;;
  require_alive p ;;;
  let* w := st_get in
  match plan_of w p with
  | Some (FailGoto m) => st_throw m
  | Some (Navigate d) => st_modify (set_dom_w p d)
  | _ => ret tt
  end.

(** [waitForSelector('.cm-editor')]: resolves when the editor marker is
    in the document, rejects after the timeout otherwise. *)
Definition drv_waitForSelector (p : nat) (sel : string) (timeout : N) : M unit :=
  emit (AWaitForSelector p sel timeout) ;;;
  require_alive p ;;;
  let* w := st_get in
  match w_dom w !! p with
  | Some d => if dom_editor d then ret tt else st_throw selector_timeout
  | None => st_throw selector_timeout
  end.

Definition drv_evaluate (p : nat) (s : Script) : M JsVal :=
  emit (AEvaluate p s) ;;;
  require_alive p ;;;
  let* w := st_get in
  match w_dom w !! p with
  | Some d =>
      let '(r, d') := run_script s d in
      st_modify (set_dom_w p d') ;;;
      match r with Ok v => ret v | Err m => st_throw m end
  | None => st_throw target_closed
  end.

Definition drv_keyDown (p : nat) (k : string) : M unit :=
  emit (AKeyDown p k) ;;; require_alive p.
Definition drv_keyPress (p : nat) (k : string) : M unit :=
  emit (AKeyPress p k) ;;; require_alive p.
Definition drv_keyUp (p : nat) (k : string) : M unit :=
  emit (AKeyUp p k) ;;; require_alive p.

(** [page.waitForTimeout(ms)] is a timer: it resolves whatever the
    page's state. *)
Definition drv_waitForTimeout (p : nat) (ms : N) : M unit :=
  emit (AWaitForTimeout p ms).

Definition drv_close (b : nat) : M unit :=
  emit (ACloseBrowser b) ;;; st_modify (close_w b).

Definition set_browser (b : option nat) : M unit := st_modify (set_browser_w b).
Definition set_page (p : option nat) : M unit := st_modify (set_page_w p).

(** ** browser.js *)

Definition user_agent : string :=
  "Mozilla/5.0 (Macintosh; Intel Mac OS X 10_15_7) AppleWebKit/537.36 (KHTML, like Gecko) Chrome/120.0.0.0 Safari/537.36".

(** The options of [puppeteer.launch] (lines 52-66). *)
Definition launch_options (cfg : Config) : LaunchOptions :=
  mkLaunchOptions
    (if cfg_headless cfg then HeadlessNew else HeadlessOff)
    [ "--no-sandbox"; "--disable-setuid-sandbox";
      "--autoplay-policy=no-user-gesture-required";
      "--enable-features=WebAudioBypassOutputBuffering";
      "--disable-features=AudioServiceOutOfProcess";
      "--window-size=" +:+ string_of_N (cfg_width cfg) +:+ "," +:+ string_of_N (cfg_height cfg) ]
    (cfg_width cfg, cfg_height cfg).

Definition launch_failed_prefix : string := "Browser launch failed: ".

(** The second [try] block of [launchBrowser] (lines 49-91). *)
Definition fresh_launch : M (nat * nat) :=
  st_rethrow launch_failed_prefix (
    let* cfg := st_gets w_config in
    let* b := drv_launch (launch_options cfg) in
    set_browser (Some b) ;;;
    let* p := drv_newPage b in
    set_page (Some p) ;;;
    drv_setUserAgent p user_agent ;;;
    drv_goto p (cfg_url cfg) "networkidle2" 30000%N ;;;
    drv_waitForSelector p ".cm-editor" 10000%N ;;;
    ret (b, p)).

(** [launchBrowser] (lines 35-92): reuse a session whose page answers the
    probe; otherwise forget it (without closing it) and launch afresh. *)
Definition launchBrowser : M (nat * nat) :=
  let* w := st_get in
  match w_browser w, w_page w with
  | Some b, Some p =>
      st_catch (drv_evaluate p SProbe ;;; ret (b, p))
               (fun _ => set_browser None ;;; set_page None ;;; fresh_launch)
  | _, _ => fresh_launch
  end.

(** [getPage] (lines 99-105): launches only when [page] is null. *)
Definition getPage : M nat :=
  let* w := st_get in
  match w_page w with
  | None => let* r := launchBrowser in ret (snd r)
  | Some p => ret p
  end.

(** [closeBrowser] (lines 110-117). *)
Definition closeBrowser : M unit :=
  let* w := st_get in
  match w_browser w with
  | Some b => drv_close b ;;; set_browser None ;;; set_page None
  | None => ret tt
  end.

(** [restartBrowser] (lines 122-125). *)
Definition restartBrowser : M (nat * nat) :=
  closeBrowser ;;; launchBrowser.

(** [isBrowserAlive] (lines 130-139). *)
Definition isBrowserAlive : M bool :=
  let* w := st_get in
  match w_browser w, w_page w with
  | Some _, Some p => st_catch (drv_evaluate p SProbe ;;; ret true) (fun _ => ret false)
  | _, _ => ret false
  end.

(** [getConfig] (lines 144-146). *)
Definition getConfig : M Config := st_gets w_config.

(** What [isBrowserAlive] is meant to report: both handles set and the
    page answering. *)
Definition session_alive (w : World) : bool :=
  match w_browser w, w_page w with
  | Some _, Some p => page_alive w p
  | _, _ => false
  end.

(** ** Invariants of the world *)

(** Handles are allocated from [w_next]: every handle in use is below it,
    and every page has a document. *)
Definition alloc_wf (w : World) : Prop :=
  (forall b, b ∈ w_open w -> b < w_next w) /\
  (forall p b, w_owner w !! p = Some b -> p < w_next w /\ b < w_next w) /\
  (forall p, p ∈ w_crashed w -> p < w_next w) /\
  (forall p, is_Some (w_owner w !! p) -> is_Some (w_dom w !! p)).

(** The module's [page], when set, is a tab of the module's [browser]. *)
Definition session_shape (w : World) : Prop :=
  (forall p, w_page w = Some p -> exists b, w_browser w = Some b /\ w_owner w !! p = Some b) /\
  (forall b, w_browser w = Some b -> b < w_next w).

Definition session_wf (w : World) : Prop := alloc_wf w /\ session_shape w.

(** A driver call leaves the module variables alone and only adds pages. *)
Definition grows (w w' : World) : Prop :=
  w_browser w' = w_browser w /\ w_page w' = w_page w /\ w_next w <= w_next w' /\
  (forall p b, w_owner w !! p = Some b -> w_owner w' !! p = Some b).

(** ** Sample worlds *)

(** The configuration with every environment variable unset. *)
Definition default_config : Config := mkConfig "https://strudel.cc" true 1280 720 false.

(** strudel.cc once loaded: the editor with its CodeMirror view. *)
Definition strudel_dom (doc : string) : Dom := mkDom true (Some doc) None false true None.

(** A process start: no session, every launch attempt answered by [env]. *)
Definition init_world (cfg : Config) (env : nat -> LaunchOutcome) : World :=
  mkWorld cfg None None 0 ∅ ∅ ∅ ∅ ∅ 0 env [].

(** Every launch attempt lands on strudel.cc with an empty editor. *)
Definition env_ok : nat -> LaunchOutcome := fun _ => Navigate (strudel_dom "").

Definition world_start : World := init_world default_config env_ok.

(** After a first [launchBrowser]: browser 0, page 1. *)
Definition world_running : World := snd (launchBrowser world_start).

(** The same, after the tab crashed. *)
Definition world_dead_page : World := crash_w 1 world_running.

(** A process whose navigations time out. *)
Definition world_goto_fails : World :=
  init_world default_config (fun _ => FailGoto "Navigation timeout of 30000 ms exceeded").

(** A process whose [newPage] calls fail. *)
Definition world_newpage_fails : World :=
  init_world default_config (fun _ => FailNewPage "Protocol error: Target.createTarget").

(** The world [launchBrowser] hands to [fresh_launch] after a failed probe. *)
Definition forgotten (w : World) (p : nat) : World :=
  set_page_w None (set_browser_w None (log_w (AEvaluate p SProbe) w)).

(** ** What the session promises the command bridge

    strudel.js imports [getPage] from browser.js and relies on three
    things: it keeps the world well formed, the page it returns is the
    stored [page], and a stored page that answers is returned without
    touching the world. *)
Class PageProvider := {
  provide_page : M nat;
  provide_page_wf : st_preserves session_wf provide_page;
  provide_page_current : forall w p w',
    session_wf w -> provide_page w = (Ok p, w') -> w_page w' = Some p;
  provide_page_stored : forall w p,
    w_page w = Some p -> page_alive w p = true -> provide_page w = (Ok p, w);
}.

(** ** Allocation invariant *)

Lemma alloc_set_dom w p d : alloc_wf w -> alloc_wf (set_dom_w p d w).
Proof.
  intros (Ho & Hw & Hc & Hd). split_and!; simpl; [done..|].
  intros q Hq. destruct (decide (p = q)) as [->|]; [by rewrite lookup_insert_eq|].
  rewrite lookup_insert_ne by done. by apply Hd.
Qed.

Lemma alloc_spawn_browser w o : alloc_wf w -> alloc_wf (spawn_browser_w o w).
Proof.
  intros (Ho & Hw & Hc & Hd). split_and!; simpl.
  - intros b Hb. apply elem_of_union in Hb as [->%elem_of_singleton|Hb]; [lia|].
    apply Ho in Hb. lia.
  - intros p b Hp. apply Hw in Hp. lia.
  - intros p Hp. apply Hc in Hp. lia.
  - done.
Qed.

Lemma alloc_spawn_page w b : alloc_wf w -> b ∈ w_open w -> alloc_wf (spawn_page_w b w).
Proof.
  intros (Ho & Hw & Hc & Hd) Hb. split_and!; simpl.
  - intros c Hc'. apply Ho in Hc'. lia.
  - intros q c Hq. destruct (decide (q = w_next w)) as [->|].
    + rewrite lookup_insert_eq in Hq. injection Hq as <-. apply Ho in Hb. lia.
    + rewrite lookup_insert_ne in Hq by done. apply Hw in Hq. lia.
  - intros q Hq. apply Hc in Hq. lia.
  - intros q Hq. destruct (decide (q = w_next w)) as [->|]; [by rewrite lookup_insert_eq|].
    rewrite lookup_insert_ne in Hq by done. rewrite lookup_insert_ne by done. by apply Hd.
Qed.

(** A fresh handle is no page of the world. *)
Lemma alloc_fresh_owner w : alloc_wf w -> w_owner w !! w_next w = None.
Proof.
  intros (_ & Hw & _). destruct (w_owner w !! w_next w) as [b|] eqn:E; [|done].
  apply Hw in E. lia.
Qed.

Lemma alloc_fresh_crashed w k : alloc_wf w -> w_next w <= k -> k ∉ w_crashed w.
Proof. intros (_ & _ & Hc & _) Hk Hin. apply Hc in Hin. lia. Qed.

Lemma alloc_emit a : st_preserves alloc_wf (emit a).
Proof. intros w Hw. exact Hw. Qed.

Lemma alloc_require p : st_preserves alloc_wf (require_alive p).
Proof. intros w Hw. unfold require_alive. st_unfold. simpl. by destruct page_alive. Qed.

Lemma alloc_set_browser b : st_preserves alloc_wf (set_browser b).
Proof. intros w Hw. exact Hw. Qed.

Lemma alloc_set_page p : st_preserves alloc_wf (set_page p).
Proof. intros w Hw. exact Hw. Qed.

Lemma alloc_launch o : st_preserves alloc_wf (drv_launch o).
Proof.
  intros w Hw. unfold drv_launch, emit. st_unfold. simpl.
  destruct (w_env w (w_attempts w)); simpl; try done; by apply alloc_spawn_browser.
Qed.

Lemma alloc_newPage b : st_preserves alloc_wf (drv_newPage b).
Proof.
  intros w Hw. unfold drv_newPage, emit. st_unfold. simpl.
  case_bool_decide as Hb; simpl; [|exact Hw].
  destruct (w_plan w !! b) as [[]|]; simpl; first [exact Hw | by apply alloc_spawn_page].
Qed.

Lemma alloc_setUserAgent p ua : st_preserves alloc_wf (drv_setUserAgent p ua).
Proof.
  intros w Hw. unfold drv_setUserAgent, require_alive, emit. st_unfold. simpl.
  destruct (page_alive _ p); simpl; [|exact Hw].
  destruct (plan_of _ p) as [[]|]; exact Hw.
Qed.

Lemma alloc_goto p u wu t : st_preserves alloc_wf (drv_goto p u wu t).
Proof.
  intros w Hw. unfold drv_goto, require_alive, emit. st_unfold. simpl.
  destruct (page_alive _ p); simpl; [|exact Hw].
  destruct (plan_of _ p) as [[]|]; simpl; try exact Hw. by apply alloc_set_dom.
Qed.

Lemma alloc_waitForSelector p sel t : st_preserves alloc_wf (drv_waitForSelector p sel t).
Proof.
  intros w Hw. unfold drv_waitForSelector, require_alive, emit. st_unfold. simpl.
  destruct (page_alive _ p); simpl; [|exact Hw].
  destruct (w_dom w !! p) as [[[]]|]; exact Hw.
Qed.

Lemma alloc_evaluate p s : st_preserves alloc_wf (drv_evaluate p s).
Proof.
  intros w Hw. unfold drv_evaluate, require_alive, emit. st_unfold. simpl.
  destruct (page_alive _ p); simpl; [|exact Hw].
  destruct (w_dom w !! p) as [d|]; [|exact Hw].
  destruct (run_script s d) as [[v|m] d']; simpl; by apply alloc_set_dom.
Qed.

Lemma alloc_keyDown p k : st_preserves alloc_wf (drv_keyDown p k).
Proof. apply st_preserves_bind; [apply alloc_emit|intros _; apply alloc_require]. Qed.

Lemma alloc_keyPress p k : st_preserves alloc_wf (drv_keyPress p k).
Proof. apply st_preserves_bind; [apply alloc_emit|intros _; apply alloc_require]. Qed.

Lemma alloc_keyUp p k : st_preserves alloc_wf (drv_keyUp p k).
Proof. apply st_preserves_bind; [apply alloc_emit|intros _; apply alloc_require]. Qed.

Lemma alloc_waitForTimeout p ms : st_preserves alloc_wf (drv_waitForTimeout p ms).
Proof. apply alloc_emit. Qed.

Lemma alloc_close b : st_preserves alloc_wf (drv_close b).
Proof.
  intros w (Ho & Hw & Hc & Hd). split_and!; simpl; try done.
  intros c Hin. apply Ho. by apply elem_of_difference in Hin as [Hin _].
Qed.

#[export] Hint Resolve alloc_emit alloc_require alloc_set_browser alloc_set_page alloc_launch
  alloc_newPage alloc_setUserAgent alloc_goto alloc_waitForSelector alloc_evaluate
  alloc_keyDown alloc_keyPress alloc_keyUp alloc_waitForTimeout alloc_close : strudel.

(** ** Driver calls only grow the world *)

Lemma grows_refl w : grows w w.
Proof. by split_and!. Qed.

Lemma grows_trans w1 w2 w3 : grows w1 w2 -> grows w2 w3 -> grows w1 w3.
Proof.
  intros (Hb1 & Hp1 & Hn1 & Ho1) (Hb2 & Hp2 & Hn2 & Ho2).
  split_and!; [congruence|congruence|lia|]. intros p b H. by apply Ho2, Ho1.
Qed.

Lemma shape_grows w w' : session_shape w -> grows w w' -> session_shape w'.
Proof.
  intros [Hs Hn] (Hb & Hp & Hle & Ho). split.
  - intros p Hpw. rewrite Hp in Hpw.
    destruct (Hs p Hpw) as (b & Hbw & Hown). exists b. rewrite Hb. auto.
  - intros b Hbw. rewrite Hb in Hbw. apply Hn in Hbw. lia.
Qed.

(** Every world built from [w] by the setters other than [set_browser_w]
    and [set_page_w] keeps the module variables and the owners. *)
Ltac grows_t :=
  match goal with
  | |- grows _ _ => split_and!; simpl; [done|done|lia|]; intros ?? ?; simpl; try done
  end.

Lemma grows_emit a : st_rel alloc_wf grows (emit a).
Proof. intros w _. grows_t. Qed.

Lemma grows_require p : st_rel alloc_wf grows (require_alive p).
Proof. intros w _. unfold require_alive. st_unfold. simpl. destruct page_alive; apply grows_refl. Qed.

Lemma grows_launch o : st_rel alloc_wf grows (drv_launch o).
Proof.
  intros w _. unfold drv_launch, emit. st_unfold. simpl.
  destruct (w_env w (w_attempts w)); simpl; grows_t.
Qed.

Lemma grows_spawn_page w a b : alloc_wf w -> grows w (spawn_page_w b (log_w a w)).
Proof.
  intros Hw. split_and!; simpl; [done|done|lia|]. intros p c Hp.
  rewrite lookup_insert_ne; [done|]. intros <-. by rewrite alloc_fresh_owner in Hp.
Qed.

Lemma grows_newPage b : st_rel alloc_wf grows (drv_newPage b).
Proof.
  intros w Hw. unfold drv_newPage, emit. st_unfold. simpl.
  case_bool_decide; simpl; [|grows_t].
  destruct (w_plan w !! b) as [[]|]; simpl; first [solve [grows_t] | by apply grows_spawn_page].
Qed.

Lemma grows_setUserAgent p ua : st_rel alloc_wf grows (drv_setUserAgent p ua).
Proof.
  intros w _. unfold drv_setUserAgent, require_alive, emit. st_unfold. simpl.
  destruct (page_alive _ p); simpl; [|grows_t].
  destruct (plan_of _ p) as [[]|]; grows_t.
Qed.

Lemma grows_goto p u wu t : st_rel alloc_wf grows (drv_goto p u wu t).
Proof.
  intros w _. unfold drv_goto, require_alive, emit. st_unfold. simpl.
  destruct (page_alive _ p); simpl; [|grows_t].
  destruct (plan_of _ p) as [[]|]; grows_t.
Qed.

Lemma grows_waitForSelector p sel t : st_rel alloc_wf grows (drv_waitForSelector p sel t).
Proof.
  intros w _. unfold drv_waitForSelector, require_alive, emit. st_unfold. simpl.
  destruct (page_alive _ p); simpl; [|grows_t].
  destruct (w_dom w !! p) as [[[]]|]; grows_t.
Qed.

Lemma grows_evaluate p s : st_rel alloc_wf grows (drv_evaluate p s).
Proof.
  intros w _. unfold drv_evaluate, require_alive, emit. st_unfold. simpl.
  destruct (page_alive _ p); simpl; [|grows_t].
  destruct (w_dom w !! p) as [d|]; [|grows_t].
  destruct (run_script s d) as [[v|m] d']; grows_t.
Qed.

Lemma grows_key_common a p : st_rel alloc_wf grows (emit a ;;; require_alive p).
Proof.
  apply st_rel_bind;
    [exact grows_trans|apply alloc_emit|apply grows_emit|intros _; apply grows_require].
Qed.

Lemma grows_close b : st_rel alloc_wf grows (drv_close b).
Proof. intros w _. grows_t. Qed.

(** Hence every driver call preserves the whole invariant. *)
Lemma wf_of_alloc_grows {A} (m : M A) :
  st_preserves alloc_wf m -> st_rel alloc_wf grows m -> st_preserves session_wf m.
Proof.
  intros Ha Hg w Hwf. split; [apply Ha, Hwf|].
  eapply shape_grows; [apply Hwf|]. apply Hg, Hwf.
Qed.

Lemma wf_emit a : st_preserves session_wf (emit a).
Proof. apply wf_of_alloc_grows; [apply alloc_emit|apply grows_emit]. Qed.
Lemma wf_launch o : st_preserves session_wf (drv_launch o).
Proof. apply wf_of_alloc_grows; [apply alloc_launch|apply grows_launch]. Qed.
Lemma wf_newPage b : st_preserves session_wf (drv_newPage b).
Proof. apply wf_of_alloc_grows; [apply alloc_newPage|apply grows_newPage]. Qed.
Lemma wf_setUserAgent p ua : st_preserves session_wf (drv_setUserAgent p ua).
Proof. apply wf_of_alloc_grows; [apply alloc_setUserAgent|apply grows_setUserAgent]. Qed.
Lemma wf_goto p u wu t : st_preserves session_wf (drv_goto p u wu t).
Proof. apply wf_of_alloc_grows; [apply alloc_goto|apply grows_goto]. Qed.
Lemma wf_waitForSelector p sel t : st_preserves session_wf (drv_waitForSelector p sel t).
Proof. apply wf_of_alloc_grows; [apply alloc_waitForSelector|apply grows_waitForSelector]. Qed.
Lemma wf_evaluate p s : st_preserves session_wf (drv_evaluate p s).
Proof. apply wf_of_alloc_grows; [apply alloc_evaluate|apply grows_evaluate]. Qed.
Lemma wf_keyDown p k : st_preserves session_wf (drv_keyDown p k).
Proof. apply wf_of_alloc_grows; [apply alloc_keyDown|apply grows_key_common]. Qed.
Lemma wf_keyPress p k : st_preserves session_wf (drv_keyPress p k).
Proof. apply wf_of_alloc_grows; [apply alloc_keyPress|apply grows_key_common]. Qed.
Lemma wf_keyUp p k : st_preserves session_wf (drv_keyUp p k).
Proof. apply wf_of_alloc_grows; [apply alloc_keyUp|apply grows_key_common]. Qed.
Lemma wf_waitForTimeout p ms : st_preserves session_wf (drv_waitForTimeout p ms).
Proof. apply wf_emit. Qed.

#[export] Hint Resolve wf_emit wf_launch wf_newPage wf_setUserAgent wf_goto wf_waitForSelector
  wf_evaluate wf_keyDown wf_keyPress wf_keyUp wf_waitForTimeout : strudel.


(** ** The operations of browser.js keep the session well formed *)

Lemma wf_set_browser_empty w b :
  session_wf w -> w_page w = None -> (forall b', b = Some b' -> b' < w_next w) ->
  session_wf (set_browser_w b w).
Proof. intros [Ha _] Hp Hb. split; [exact Ha|split; [|exact Hb]]. intros q Hq. simpl in Hq. congruence. Qed.

Lemma wf_hoare {A} (m : M A) :
  st_preserves session_wf m -> st_hoare session_wf m (fun _ => session_wf) (fun _ => session_wf).
Proof. apply hoare_of_preserves. Qed.

Lemma launch_post o :
  st_hoare (fun w => session_wf w /\ w_page w = None) (drv_launch o)
    (fun b w => session_wf w /\ w_page w = None /\ b ∈ w_open w)
    (fun _ w => session_wf w /\ w_page w = None).
Proof.
  intros w [Hwf Hp]. pose proof (wf_launch o w Hwf) as H.
  unfold drv_launch, emit in *. st_unfold. simpl in *.
  destruct (w_env w (w_attempts w)); simpl in *; split_and!; try done; set_solver.
Qed.

Lemma newPage_post b :
  st_hoare (fun w => session_wf w /\ w_page w = None /\ w_browser w = Some b) (drv_newPage b)
    (fun p w => session_wf w /\ w_page w = None /\ w_browser w = Some b /\ w_owner w !! p = Some b)
    (fun _ w => session_wf w /\ w_page w = None).
Proof.
  intros w (Hwf & Hp & Hb). pose proof (wf_newPage b w Hwf) as H.
  unfold drv_newPage, emit in *. st_unfold. simpl in *.
  case_bool_decide; simpl in *; [|done].
  destruct (w_plan w !! b) as [[]|]; simpl in *; split_and!; try done;
    by rewrite lookup_insert_eq.
Qed.

Lemma fresh_launch_wf :
  st_hoare (fun w => session_wf w /\ w_page w = None) fresh_launch
    (fun _ => session_wf) (fun _ => session_wf).
Proof.
  unfold fresh_launch. apply hoare_rethrow.
  apply (hoare_bind _ _ _ (fun _ w => session_wf w /\ w_page w = None)).
  { apply hoare_gets. done. }
  intros cfg.
  apply (hoare_bind _ _ _ (fun b w => session_wf w /\ w_page w = None /\ b ∈ w_open w)).
  { eapply hoare_conseq; [apply launch_post|done|done|]. by intros e w [? _]. }
  intros b.
  apply (hoare_bind _ _ _ (fun _ w => session_wf w /\ w_page w = None /\ w_browser w = Some b)).
  { apply hoare_modify. intros w (Hwf & Hp & Hin). split_and!; [|done|done].
    apply wf_set_browser_empty; [done|done|]. intros b' [= <-].
    destruct Hwf as [(Ho & _) _]. by apply Ho. }
  intros _.
  apply (hoare_bind _ _ _ (fun p w => session_wf w /\ w_page w = None /\
                                      w_browser w = Some b /\ w_owner w !! p = Some b)).
  { eapply hoare_conseq; [apply newPage_post|done|done|]. by intros e w [? _]. }
  intros p.
  apply (hoare_bind _ _ _ (fun _ => session_wf)).
  { apply hoare_modify. intros w ([Ha [_ Hn]] & Hp & Hb & Ho). split; [exact Ha|split; [|exact Hn]].
    intros q Hq. simpl in Hq. injection Hq as Heq. subst q. by exists b. }
  intros _. eapply hoare_bind; [apply wf_hoare; auto with strudel|intros ?].
  eapply hoare_bind; [apply wf_hoare; auto with strudel|intros ?].
  eapply hoare_bind; [apply wf_hoare; auto with strudel|intros ?].
  by apply hoare_ret.
Qed.

(** Forgetting the session, as the probe's [catch] does, and launching. *)
Lemma wf_forget_and_launch :
  st_preserves session_wf (set_browser None ;;; set_page None ;;; fresh_launch).
Proof.
  apply preserves_of_hoare.
  apply (hoare_bind _ _ _ (fun _ w => alloc_wf w /\ w_browser w = None)).
  { apply hoare_modify. by intros w [Ha _]. }
  intros _. apply (hoare_bind _ _ _ (fun _ w => session_wf w /\ w_page w = None)).
  { apply hoare_modify. intros w [Ha Hb].
    split; [split; [done|split; [by intros q Hq|simpl; rewrite Hb; by intros q Hq]]|done]. }
  intros _. apply fresh_launch_wf.
Qed.

Lemma wf_launchBrowser : st_preserves session_wf launchBrowser.
Proof.
  intros w Hw. unfold launchBrowser. rewrite st_bind_get.
  destruct (w_browser w) as [b|] eqn:Hb, (w_page w) as [p|] eqn:Hp.
  - refine (st_preserves_catch session_wf _ _ _ _ w Hw);
      [st_preserves_t|intros ?; apply wf_forget_and_launch].
  - eapply hoare_snd; [apply fresh_launch_wf|done].
  - destruct Hw as [_ [Hs _]]. destruct (Hs p ltac:(done)) as (? & ? & _). congruence.
  - eapply hoare_snd; [apply fresh_launch_wf|done].
Qed.


(** ** Evaluating a launch, outcome by outcome *)

(** Symbolic evaluation of a chain of driver calls on a world whose fresh
    handles are known not to be crashed. *)
Ltac world_simpl :=
  repeat (progress (simpl in *; rewrite ?lookup_insert_eq;
    repeat match goal with
    | |- context [bool_decide ?P] =>
        first [ rewrite (bool_decide_eq_true_2 P) by set_solver
              | rewrite (bool_decide_eq_false_2 P) by set_solver ]
    end)).

Ltac run_fresh Henv :=
  unfold fresh_launch, drv_launch, drv_newPage, drv_setUserAgent, drv_goto,
    drv_waitForSelector, require_alive, emit, set_browser, set_page, page_alive, plan_of;
  st_unfold; st_unfold; simpl; rewrite Henv; world_simpl.

Section FreshLaunch.
Context (w : World) (Hw : alloc_wf w).
Let b := w_next w.
Let p := S (w_next w).
Let Hb : b ∉ w_crashed w := alloc_fresh_crashed w b Hw (le_n _).
Let Hp : p ∉ w_crashed w := alloc_fresh_crashed w p Hw (le_S _ _ (le_n _)).

(** Every step succeeds: the new browser and tab become the session. *)
Lemma fresh_launch_navigate d :
  w_env w (w_attempts w) = Navigate d -> dom_editor d = true ->
  exists w', fresh_launch w = (Ok (b, p), w') /\
    w_browser w' = Some b /\ w_page w' = Some p /\
    w_open w' = {[b]} ∪ w_open w /\ w_owner w' = <[p:=b]> (w_owner w) /\
    w_crashed w' = w_crashed w /\ w_dom w' !! p = Some d /\ w_next w' = S p.
Proof.
  intros Henv Hed. subst b p. run_fresh Henv. rewrite Hed. simpl.
  eexists; split; [reflexivity|]. simpl. split_and!; try done. by rewrite lookup_insert_eq.
Qed.

(** [puppeteer.launch] rejects: nothing but the attempt is recorded. *)
Lemma fresh_launch_fail_launch m :
  w_env w (w_attempts w) = FailLaunch m ->
  exists w', fresh_launch w = (Err (launch_failed_prefix +:+ m), w') /\
    w_browser w' = w_browser w /\ w_page w' = w_page w /\ w_open w' = w_open w.
Proof. intros Henv. run_fresh Henv. by eexists. Qed.

(** [browser.newPage] rejects: [browser] is already assigned. *)
Lemma fresh_launch_fail_newPage m :
  w_env w (w_attempts w) = FailNewPage m ->
  exists w', fresh_launch w = (Err (launch_failed_prefix +:+ m), w') /\
    w_browser w' = Some b /\ w_page w' = w_page w /\ w_open w' = {[b]} ∪ w_open w.
Proof. intros Henv. subst b. run_fresh Henv. by eexists. Qed.

(** A later step rejects: [browser] and [page] are both assigned. *)
Lemma fresh_launch_fail_userAgent m :
  w_env w (w_attempts w) = FailUserAgent m ->
  exists w', fresh_launch w = (Err (launch_failed_prefix +:+ m), w') /\
    w_browser w' = Some b /\ w_page w' = Some p /\ w_open w' = {[b]} ∪ w_open w /\
    w_owner w' = <[p:=b]> (w_owner w) /\ w_crashed w' = w_crashed w.
Proof. intros Henv. subst b p. run_fresh Henv. by eexists. Qed.

Lemma fresh_launch_fail_goto m :
  w_env w (w_attempts w) = FailGoto m ->
  exists w', fresh_launch w = (Err (launch_failed_prefix +:+ m), w') /\
    w_browser w' = Some b /\ w_page w' = Some p /\ w_open w' = {[b]} ∪ w_open w /\
    w_owner w' = <[p:=b]> (w_owner w) /\ w_crashed w' = w_crashed w /\
    w_dom w' !! p = Some blank_dom.
Proof.
  intros Henv. subst b p. run_fresh Henv. eexists; split; [reflexivity|].
  simpl. split_and!; try done. by rewrite lookup_insert_eq.
Qed.

Lemma fresh_launch_no_editor d :
  w_env w (w_attempts w) = Navigate d -> dom_editor d = false ->
  exists w', fresh_launch w = (Err (launch_failed_prefix +:+ selector_timeout), w') /\
    w_browser w' = Some b /\ w_page w' = Some p /\ w_open w' = {[b]} ∪ w_open w /\
    w_owner w' = <[p:=b]> (w_owner w) /\ w_crashed w' = w_crashed w /\
    w_dom w' !! p = Some d.
Proof.
  intros Henv Hed. subst b p. run_fresh Henv. rewrite Hed. simpl.
  eexists; split; [reflexivity|]. simpl. split_and!; try done. by rewrite lookup_insert_eq.
Qed.
End FreshLaunch.

Lemma page_alive_launched w w' b p :
  w_owner w' = <[p:=b]> (w_owner w) -> b ∈ w_open w' -> w_crashed w' = w_crashed w ->
  p ∉ w_crashed w -> page_alive w' p = true.
Proof.
  intros Ho Hb Hc Hp. unfold page_alive. rewrite Ho, lookup_insert_eq, Hc.
  by rewrite !bool_decide_eq_true_2.
Qed.

(** Whatever the environment does, a launch either installs the fresh
    browser and a live tab, or rejects with the launch prefix; it never
    closes a browser, and [browser] ends up unchanged or the fresh one. *)
Lemma fresh_launch_summary w :
  alloc_wf w ->
  exists r w', fresh_launch w = (r, w') /\ w_open w ⊆ w_open w' /\
    (w_browser w' = w_browser w \/ w_browser w' = Some (w_next w)) /\
    match r with
    | Ok x => x = (w_next w, S (w_next w)) /\ page_alive w' (S (w_next w)) = true /\
              w_browser w' = Some (w_next w) /\ w_page w' = Some (S (w_next w))
    | Err e => exists m, e = launch_failed_prefix +:+ m
    end.
Proof.
  intros Hw. pose proof (alloc_fresh_crashed w (S (w_next w)) Hw (le_S _ _ (le_n _))) as Hp.
  destruct (w_env w (w_attempts w)) as [m|m|m|m|d] eqn:Henv.
  - destruct (fresh_launch_fail_launch w m Henv) as (w' & -> & Hb & _ & Ho).
    eexists _, w'. split_and!; [done|set_solver|by left|by eexists].
  - destruct (fresh_launch_fail_newPage w Hw m Henv) as (w' & -> & Hb & _ & Ho).
    eexists _, w'. split_and!; [done|set_solver|by right|by eexists].
  - destruct (fresh_launch_fail_userAgent w Hw m Henv) as (w' & -> & Hb & _ & Ho & _).
    eexists _, w'. split_and!; [done|set_solver|by right|by eexists].
  - destruct (fresh_launch_fail_goto w Hw m Henv) as (w' & -> & Hb & _ & Ho & _).
    eexists _, w'. split_and!; [done|set_solver|by right|by eexists].
  - destruct (dom_editor d) eqn:Hed.
    + destruct (fresh_launch_navigate w Hw d Henv Hed) as (w' & -> & Hb & Hpg & Ho & Hown & Hc & _).
      eexists _, w'. split_and!; [done|set_solver|by right|]. simpl.
      split_and!; [done| |done|done].
      eapply page_alive_launched; [exact Hown|set_solver|exact Hc|exact Hp].
    + destruct (fresh_launch_no_editor w Hw d Henv Hed) as (w' & -> & Hb & _ & Ho & _).
      eexists _, w'. split_and!; [done|set_solver|by right|by eexists].
Qed.

(** The probe [page.evaluate(() => true)] on a page that does not answer. *)
Lemma probe_dead w p {A} (x : A) :
  page_alive w p = false ->
  (drv_evaluate p SProbe ;;; ret x) w = (Err target_closed, log_w (AEvaluate p SProbe) w).
Proof.
  intros Hd. cbv [drv_evaluate require_alive emit st_bind st_modify st_get st_throw st_ret].
  change (page_alive (log_w ?a w) p) with (page_alive w p). by rewrite Hd.
Qed.

Lemma set_dom_same w p d : w_dom w !! p = Some d -> set_dom_w p d w = w.
Proof. intros H. destruct w. unfold set_dom_w. simpl in *. f_equal. by apply insert_id. Qed.

(** The probe on a page that answers leaves the world as it was, but for
    the log. *)
Lemma probe_alive w p {A} (x : A) :
  alloc_wf w -> page_alive w p = true ->
  (drv_evaluate p SProbe ;;; ret x) w = (Ok x, log_w (AEvaluate p SProbe) w).
Proof.
  intros (_ & _ & _ & Hd) Ha.
  assert (is_Some (w_dom w !! p)) as [d Hdp].
  { apply Hd. unfold page_alive in Ha. by destruct (w_owner w !! p). }
  cbv [drv_evaluate require_alive emit st_bind st_modify st_get st_throw st_ret].
  change (page_alive (log_w ?a w) p) with (page_alive w p). rewrite Ha.
  change (w_dom (log_w ?a w)) with (w_dom w). rewrite Hdp. cbn [run_script].
  by rewrite (set_dom_same (log_w (AEvaluate p SProbe) w) p d Hdp).
Qed.

Lemma launchBrowser_dead_probe w b p :
  w_browser w = Some b -> w_page w = Some p -> page_alive w p = false ->
  launchBrowser w = fresh_launch (forgotten w p).
Proof.
  intros Hb Hp Hd. unfold launchBrowser. rewrite st_bind_get, Hb, Hp.
  unfold st_catch at 1. by rewrite probe_dead.
Qed.

Lemma launchBrowser_no_page w : w_page w = None -> launchBrowser w = fresh_launch w.
Proof.
  intros Hp. unfold launchBrowser. rewrite st_bind_get, Hp. by destruct (w_browser w).
Qed.

Lemma alloc_forgotten w p : alloc_wf w -> alloc_wf (forgotten w p).
Proof. done. Qed.

(** [launchBrowser] either reuses a live session or runs [fresh_launch] on
    a world with the same handles and environment. *)
Lemma launchBrowser_cases w :
  session_wf w ->
  (exists b p, w_browser w = Some b /\ w_page w = Some p /\ page_alive w p = true /\
     launchBrowser w = (Ok (b, p), log_w (AEvaluate p SProbe) w)) \/
  (exists w0, launchBrowser w = fresh_launch w0 /\ alloc_wf w0 /\
     w_next w0 = w_next w /\ w_open w0 = w_open w /\ w_env w0 = w_env w /\
     w_attempts w0 = w_attempts w /\ w_crashed w0 = w_crashed w /\
     session_alive w = false).
Proof.
  intros [Ha [Hs _]]. unfold session_alive.
  destruct (w_page w) as [p|] eqn:Hp.
  - destruct (Hs p ltac:(done)) as (b & Hb & _). rewrite Hb.
    destruct (page_alive w p) eqn:Hal.
    + left. exists b, p. split_and!; try done. unfold launchBrowser.
      rewrite st_bind_get, Hb, Hp. unfold st_catch at 1. by rewrite probe_alive.
    + right. exists (forgotten w p). split_and!; try done.
      by apply (launchBrowser_dead_probe w b).
  - right. exists w. rewrite launchBrowser_no_page by done. split_and!; try done.
    by destruct (w_browser w).
Qed.

(** CodeMirror's change from 0 to the document's length replaces the
    whole document. *)
Lemma cm_replace_full code doc : cm_replace 0 (String.length doc) code doc = code.
Proof. unfold cm_replace. by rewrite Nat.sub_diag, !substring_len_0, string_app_nil_r. Qed.

(** ** Deciding the invariant on concrete worlds *)

Lemma alloc_wf_iff w :
  alloc_wf w <->
  set_Forall (fun b => b < w_next w) (w_open w) /\
  map_Forall (fun p b => p < w_next w /\ b < w_next w) (w_owner w) /\
  set_Forall (fun p => p < w_next w) (w_crashed w) /\
  dom (w_owner w) ⊆ dom (w_dom w).
Proof.
  unfold alloc_wf, set_Forall, map_Forall. split.
  - intros (Ho & Hw & Hc & Hd). split_and!; [done..|].
    intros p. rewrite !elem_of_dom. apply Hd.
  - intros (Ho & Hw & Hc & Hd). split_and!; [done..|].
    intros p. rewrite <- !elem_of_dom. apply Hd.
Qed.

#[export] Instance alloc_wf_dec w : Decision (alloc_wf w).
Proof.
  destruct (decide (set_Forall (fun b => b < w_next w) (w_open w) /\
    map_Forall (fun p b => p < w_next w /\ b < w_next w) (w_owner w) /\
    set_Forall (fun p => p < w_next w) (w_crashed w) /\
    dom (w_owner w) ⊆ dom (w_dom w))) as [H|H];
    [left; by apply alloc_wf_iff|right; by rewrite alloc_wf_iff].
Defined.

#[export] Instance session_shape_dec w : Decision (session_shape w).
Proof.
  unfold session_shape.
  cut (Decision (forall p, w_page w = Some p -> exists b, w_browser w = Some b /\ w_owner w !! p = Some b)).
  { intros Hd. apply and_dec; [exact Hd|].
    destruct (w_browser w) as [b|].
    - destruct (decide (b < w_next w)); [left; by intros ? [= <-]|right; eauto].
    - left. done. }
  destruct (w_page w) as [p|].
  - destruct (w_browser w) as [b|].
    + destruct (decide (w_owner w !! p = Some b)) as [H|H].
      * left. intros q Hq. injection Hq as <-. eauto.
      * right. intros Hs. destruct (Hs p eq_refl) as (b' & Hb' & Ho). injection Hb' as <-. done.
    + right. intros Hs. destruct (Hs p eq_refl) as (? & ? & _). done.
  - left. done.
Defined.

#[export] Instance session_wf_dec w : Decision (session_wf w).
Proof. unfold session_wf. apply _. Defined.

(** ** The remaining operations keep the session well formed *)

Lemma closeBrowser_eq w :
  closeBrowser w =
  (Ok tt, match w_browser w with
          | Some b => set_page_w None (set_browser_w None (close_w b (log_w (ACloseBrowser b) w)))
          | None => w
          end).
Proof. unfold closeBrowser. rewrite st_bind_get. by destruct (w_browser w). Qed.

Lemma wf_closeBrowser : st_preserves session_wf closeBrowser.
Proof.
  intros w Hw. rewrite closeBrowser_eq. simpl.
  destruct (w_browser w) as [b|] eqn:Hb; [|done].
  split; [exact (alloc_close b w (proj1 Hw))|split; [by intros q Hq|by intros q Hq]].
Qed.

Lemma wf_getPage : st_preserves session_wf getPage.
Proof.
  intros w Hw. unfold getPage. rewrite st_bind_get.
  destruct (w_page w); [done|].
  refine (st_preserves_bind _ _ _ wf_launchBrowser _ w Hw). intros ?. apply st_preserves_ret.
Qed.

Lemma wf_restartBrowser : st_preserves session_wf restartBrowser.
Proof. unfold restartBrowser. apply st_preserves_bind; [apply wf_closeBrowser|intros _; apply wf_launchBrowser]. Qed.

Lemma wf_isBrowserAlive : st_preserves session_wf isBrowserAlive.
Proof.
  intros w Hw. unfold isBrowserAlive. rewrite st_bind_get.
  destruct (w_browser w), (w_page w); try done. revert w Hw. st_preserves_t.
Qed.

(** The environment: a page of the world stops answering. *)
Lemma wf_crash w p : session_wf w -> is_Some (w_owner w !! p) -> session_wf (crash_w p w).
Proof.
  intros [(Ho & Hw & Hc & Hd) Hs] [b Hb]. split; [|exact Hs]. split_and!; try done.
  simpl. intros q Hq. apply elem_of_union in Hq as [->%elem_of_singleton|Hq].
  - exact (proj1 (Hw _ _ Hb)).
  - by apply Hc.
Qed.

#[export] Hint Resolve wf_launchBrowser wf_closeBrowser wf_getPage wf_restartBrowser
  wf_isBrowserAlive : strudel.

(** ** Behaviour of browser.js *)

(** C1. [launchBrowser] is self-healing: from any well-formed world without a
    live session, if the environment lets the next launch reach the editor,
    it resolves with a fresh browser and a tab that answers, on the
    loaded document. *)
Theorem launchBrowser_recovers w d :
  session_wf w -> session_alive w = false ->
  w_env w (w_attempts w) = Navigate d -> dom_editor d = true ->
  exists w', launchBrowser w = (Ok (w_next w, S (w_next w)), w') /\
    w_page w' = Some (S (w_next w)) /\ page_alive w' (S (w_next w)) = true /\
    w_dom w' !! S (w_next w) = Some d.
Proof.
  intros Hwf Hdead Henv Hed.
  destruct (launchBrowser_cases w Hwf) as [(b & p & Hb & Hp & Hal & _)
    |(w0 & -> & Ha0 & Hn & Ho & He & Hat & Hc & _)].
  - unfold session_alive in Hdead. rewrite Hb, Hp, Hal in Hdead. done.
  - rewrite <- Hn. rewrite <- He, <- Hat in Henv.
    destruct (fresh_launch_navigate w0 Ha0 d Henv Hed)
      as (w' & -> & Hb & Hp & Hop & Hown & Hcr & Hd & _).
    exists w'. split_and!; try done.
    eapply page_alive_launched; [exact Hown|set_solver|exact Hcr|].
    apply alloc_fresh_crashed; [done|lia].
Qed.

(** C16. A session whose page answers the probe is returned as it is. *)
Theorem launchBrowser_reuses w b p :
  session_wf w -> w_browser w = Some b -> w_page w = Some p -> page_alive w p = true ->
  launchBrowser w = (Ok (b, p), log_w (AEvaluate p SProbe) w).
Proof.
  intros [Ha _] Hb Hp Hal. unfold launchBrowser. rewrite st_bind_get, Hb, Hp.
  unfold st_catch at 1. by rewrite probe_alive.
Qed.

(** Whenever [launchBrowser] resolves, the handles it returns are the
    module's [browser] and [page], and the page answers. *)
Theorem launchBrowser_ok_alive w b p w' :
  session_wf w -> launchBrowser w = (Ok (b, p), w') ->
  page_alive w' p = true /\ w_browser w' = Some b /\ w_page w' = Some p.
Proof.
  intros Hwf Hl.
  destruct (launchBrowser_cases w Hwf) as [(b0 & p0 & Hb & Hp & Hal & Heq)
    |(w0 & Heq & Ha0 & _)]; rewrite Heq in Hl.
  - injection Hl as <- <- <-. by split_and!.
  - destruct (fresh_launch_summary w0 Ha0) as (r & w'' & Hf & _ & _ & Hr).
    rewrite Hf in Hl. injection Hl as -> <-.
    destruct Hr as (Hx & Hal & Hb & Hp). injection Hx as -> ->. by split_and!.
Qed.

(** C15. A failed [launchBrowser] always rejects with the launch prefix. *)
Theorem launchBrowser_error_prefix w e w' :
  session_wf w -> launchBrowser w = (Err e, w') -> exists m, e = launch_failed_prefix +:+ m.
Proof.
  intros Hwf Hl.
  destruct (launchBrowser_cases w Hwf) as [(b0 & p0 & _ & _ & _ & Heq)
    |(w0 & Heq & Ha0 & _)]; rewrite Heq in Hl; [done|].
  destruct (fresh_launch_summary w0 Ha0) as (r & w'' & Hf & _ & _ & Hr).
  rewrite Hf in Hl. by injection Hl as -> <-.
Qed.

(** [getPage] returns the stored [page] without probing it: a page that
    stopped answering is handed to the caller as it is. *)
Lemma getPage_stored w p : w_page w = Some p -> getPage w = (Ok p, w).
Proof. intros Hp. unfold getPage. by rewrite st_bind_get, Hp. Qed.

(** With no [page], [getPage] launches, and the page it returns answers. *)
Theorem getPage_launches w p w' :
  session_wf w -> w_page w = None -> getPage w = (Ok p, w') ->
  page_alive w' p = true /\ w_page w' = Some p.
Proof.
  intros Hwf Hp Hg. unfold getPage in Hg. rewrite st_bind_get, Hp in Hg.
  unfold st_bind at 1 in Hg.
  destruct (launchBrowser w) as [[[b p']|e] w''] eqn:Hl; [|done].
  injection Hg as Hpe Hw'. simpl in Hpe. subst p' w'.
  destruct (launchBrowser_ok_alive w b p w'' Hwf Hl) as (? & _ & ?). done.
Qed.

(** C8. A navigation that fails leaves both handles assigned: the rejected
    launch does not reset the session. *)
Theorem launch_failure_keeps_page w m :
  session_wf w -> w_page w = None -> w_env w (w_attempts w) = FailGoto m ->
  exists w', launchBrowser w = (Err (launch_failed_prefix +:+ m), w') /\
    w_browser w' = Some (w_next w) /\ w_page w' = Some (S (w_next w)).
Proof.
  intros Hwf Hp Henv. rewrite launchBrowser_no_page by done.
  destruct (fresh_launch_fail_goto w (proj1 Hwf) m Henv) as (w' & -> & Hb & Hpg & _).
  by exists w'.
Qed.

(** C11. A failed [newPage] leaves [browser] set and [page] null: a half
    session. *)
Theorem newPage_failure_half_session w m :
  session_wf w -> w_page w = None -> w_env w (w_attempts w) = FailNewPage m ->
  exists w', launchBrowser w = (Err (launch_failed_prefix +:+ m), w') /\
    w_browser w' = Some (w_next w) /\ w_page w' = None.
Proof.
  intros Hwf Hp Henv. rewrite launchBrowser_no_page by done.
  destruct (fresh_launch_fail_newPage w (proj1 Hwf) m Henv) as (w' & -> & Hb & Hpg & _).
  exists w'. by rewrite Hpg.
Qed.

(** C9. Recovering from a dead page forgets the old browser without closing
    it: its process stays open and nothing refers to it any more. *)
Theorem relaunch_leaks_browser w b p :
  session_wf w -> w_browser w = Some b -> w_page w = Some p -> page_alive w p = false ->
  b ∈ w_open w ->
  b ∈ w_open (snd (launchBrowser w)) /\ w_browser (snd (launchBrowser w)) <> Some b.
Proof.
  intros [Ha _] Hb Hp Hd Hin. rewrite (launchBrowser_dead_probe w b p) by done.
  destruct (fresh_launch_summary (forgotten w p) Ha) as (r & w' & -> & Hop & Hbr & _).
  simpl in *. split; [set_solver|].
  destruct Hbr as [-> | ->]; [done|]. intros [= Heq].
  destruct Ha as (Ho & _). apply Ho in Hin. lia.
Qed.

(** C12. [closeBrowser] closes the browser, clears both handles, and is
    idempotent. *)
Theorem closeBrowser_spec w :
  session_wf w ->
  exists w', closeBrowser w = (Ok tt, w') /\ w_browser w' = None /\ w_page w' = None /\
    (forall b, w_browser w = Some b -> b ∉ w_open w') /\ closeBrowser w' = (Ok tt, w').
Proof.
  intros [_ [Hs _]]. rewrite closeBrowser_eq. eexists; split; [reflexivity|].
  destruct (w_browser w) as [b|] eqn:Hb.
  - simpl. split_and!; [done|done|intros b' [= <-]; set_solver|by rewrite closeBrowser_eq].
  - destruct (w_page w) as [p|] eqn:Hp.
    + destruct (Hs p ltac:(done)) as (? & ? & _). congruence.
    + split_and!; try done. by rewrite closeBrowser_eq, Hb.
Qed.

(** C14. [isBrowserAlive] reports whether both handles are set and the page
    answers, and leaves the session alone. *)
Theorem isBrowserAlive_spec w :
  session_wf w ->
  exists w', isBrowserAlive w = (Ok (session_alive w), w') /\
    w_browser w' = w_browser w /\ w_page w' = w_page w.
Proof.
  intros [Ha _]. unfold isBrowserAlive, session_alive. rewrite st_bind_get.
  destruct (w_browser w) eqn:Hb, (w_page w) as [p|] eqn:Hp;
    try (eexists; split_and!; [reflexivity|done|done]).
  unfold st_catch at 1. destruct (page_alive w p) eqn:Hal.
  - rewrite probe_alive by done. eexists; split_and!; [reflexivity|done|done].
  - rewrite probe_dead by done. eexists; split_and!; [reflexivity|done|done].
Qed.

(** C13. [restartBrowser] closes the old browser and, when the environment
    lets the launch through, installs a fresh live session. *)
Theorem restartBrowser_fresh w d :
  session_wf w -> w_env w (w_attempts w) = Navigate d -> dom_editor d = true ->
  exists w', restartBrowser w = (Ok (w_next w, S (w_next w)), w') /\
    page_alive w' (S (w_next w)) = true /\
    (forall b, w_browser w = Some b -> b ∉ w_open w').
Proof.
  intros Hwf Henv Hed. unfold restartBrowser.
  set (w1 := snd (closeBrowser w)).
  assert (Hc : closeBrowser w = (Ok tt, w1)) by (subst w1; by rewrite closeBrowser_eq).
  assert (Hw1 : session_wf w1) by (by apply wf_closeBrowser).
  rewrite (st_bind_Ok _ _ _ _ _ Hc).
  assert (Hsame : w_next w1 = w_next w /\ w_env w1 = w_env w /\ w_attempts w1 = w_attempts w /\
          w_page w1 = None /\ w_crashed w1 = w_crashed w /\
          forall b, w_browser w = Some b -> b ∉ w_open w1).
  { subst w1. rewrite closeBrowser_eq. destruct Hwf as [_ [Hs _]].
    destruct (w_browser w) as [b|] eqn:Hb; simpl.
    - split_and!; try done. intros b' [= <-]. set_solver.
    - destruct (w_page w) as [p|] eqn:Hp; [|by split_and!].
      destruct (Hs p ltac:(done)) as (? & ? & _). congruence. }
  destruct Hsame as (Hn & He & Hat & Hp & Hcr & Hclosed).
  rewrite launchBrowser_no_page by done.
  rewrite <- He, <- Hat in Henv.
  destruct (fresh_launch_navigate w1 (proj1 Hw1) d Henv Hed)
    as (w' & Heq & _ & _ & Hop & Hown & Hcr' & _ & _).
  rewrite Hn in Heq, Hop, Hown. rewrite Heq. exists w'. split_and!; [done| |].
  - eapply page_alive_launched; [exact Hown|set_solver|exact Hcr'|].
    rewrite <- Hn. apply alloc_fresh_crashed; [apply Hw1|lia].
  - intros b Hb Hin. rewrite Hop in Hin. apply elem_of_union in Hin as [Hin|Hin].
    + apply elem_of_singleton in Hin. destruct Hwf as [_ [_ Hlt]].
      apply Hlt in Hb. lia.
    + by apply (Hclosed b Hb).
Qed.

(** ** The theorems at the sample worlds *)

Lemma launchBrowser_recovers_witness :
  exists w', launchBrowser world_dead_page =
    (Ok (w_next world_dead_page, S (w_next world_dead_page)), w') /\
    w_page w' = Some (S (w_next world_dead_page)) /\
    page_alive w' (S (w_next world_dead_page)) = true /\
    w_dom w' !! S (w_next world_dead_page) = Some (strudel_dom "").
Proof.
  apply (launchBrowser_recovers world_dead_page (strudel_dom ""));
    [apply (bool_decide_unpack _); vm_compute; reflexivity|vm_compute; reflexivity..].
Defined.

Lemma launch_failure_keeps_page_witness :
  exists w', launchBrowser world_goto_fails =
    (Err (launch_failed_prefix +:+ "Navigation timeout of 30000 ms exceeded"), w') /\
    w_browser w' = Some (w_next world_goto_fails) /\
    w_page w' = Some (S (w_next world_goto_fails)).
Proof.
  apply launch_failure_keeps_page;
    [apply (bool_decide_unpack _); vm_compute; reflexivity|vm_compute; reflexivity..].
Defined.

Lemma relaunch_leaks_browser_witness :
  0 ∈ w_open (snd (launchBrowser world_dead_page)) /\
  w_browser (snd (launchBrowser world_dead_page)) <> Some 0.
Proof.
  apply (relaunch_leaks_browser world_dead_page 0 1);
    [apply (bool_decide_unpack _); vm_compute; reflexivity|vm_compute; reflexivity..
    |apply (bool_decide_unpack _); vm_compute; reflexivity].
Defined.

Lemma newPage_failure_half_session_witness :
  exists w', launchBrowser world_newpage_fails =
    (Err (launch_failed_prefix +:+ "Protocol error: Target.createTarget"), w') /\
    w_browser w' = Some (w_next world_newpage_fails) /\ w_page w' = None.
Proof.
  apply newPage_failure_half_session;
    [apply (bool_decide_unpack _); vm_compute; reflexivity|vm_compute; reflexivity..].
Defined.

Lemma closeBrowser_spec_witness :
  exists w', closeBrowser world_running = (Ok tt, w') /\ w_browser w' = None /\
    w_page w' = None /\ (forall b, w_browser world_running = Some b -> b ∉ w_open w') /\
    closeBrowser w' = (Ok tt, w').
Proof.
  apply closeBrowser_spec. apply (bool_decide_unpack _). vm_compute. reflexivity.
Defined.

Lemma restartBrowser_fresh_witness :
  exists w', restartBrowser world_running =
    (Ok (w_next world_running, S (w_next world_running)), w') /\
    page_alive w' (S (w_next world_running)) = true /\
    (forall b, w_browser world_running = Some b -> b ∉ w_open w').
Proof.
  apply (restartBrowser_fresh world_running (strudel_dom ""));
    [apply (bool_decide_unpack _); vm_compute; reflexivity|vm_compute; reflexivity..].
Defined.

Lemma isBrowserAlive_spec_witness :
  exists w', isBrowserAlive world_dead_page = (Ok (session_alive world_dead_page), w') /\
    w_browser w' = w_browser world_dead_page /\ w_page w' = w_page world_dead_page.
Proof.
  apply isBrowserAlive_spec. apply (bool_decide_unpack _). vm_compute. reflexivity.
Defined.

Lemma launchBrowser_error_prefix_witness :
  exists m, launch_failed_prefix +:+ "Navigation timeout of 30000 ms exceeded" =
    launch_failed_prefix +:+ m.
Proof.
  apply (launchBrowser_error_prefix world_goto_fails _ (snd (launchBrowser world_goto_fails)));
    [apply (bool_decide_unpack _); vm_compute; reflexivity|vm_compute; reflexivity].
Defined.

Lemma launchBrowser_reuses_witness :
  launchBrowser world_running = (Ok (0, 1), log_w (AEvaluate 1 SProbe) world_running).
Proof.
  apply launchBrowser_reuses;
    [apply (bool_decide_unpack _); vm_compute; reflexivity|vm_compute; reflexivity..].
Defined.

End Session.
