(* ===== verification/Tempo.v ===== *)
(** * Tempo: the bpm/cps conversions of [src/src/utils.js]

    JavaScript numbers are IEEE-754 binary64, so [bpm / 60 / 4] is two
    rounded divisions: the model uses Rocq's primitive floats, whose
    [/] and [*] are exactly those operations, and every concrete fact is
    decided by [vm_compute]. *)

From S2P Require Import Prelude.
From Stdlib Require Import PrimFloat Uint63 ZArith List Lia.
Import ListNotations.

Module Tempo.

Open Scope float_scope.

(** [bpmToCps] (utils.js lines 190-193): 4 beats per cycle. *)
Definition bpmToCps (bpm : float) : float := bpm / 60 / 4.

(** [cpsToBpm] (utils.js lines 201-203). *)
Definition cpsToBpm (cps : float) : float := cps * 60 * 4.

(** JavaScript's [===] on numbers. *)
Definition num_eqb (x y : float) : bool := PrimFloat.eqb x y.

(** The integer [n] as a JavaScript number. *)
Definition of_nat (n : nat) : float := PrimFloat.of_uint63 (Uint63.of_Z (Z.of_nat n)).

(** Does [cpsToBpm (bpmToCps x) === x] hold? *)
Definition roundtrips (x : float) : bool := num_eqb (cpsToBpm (bpmToCps x)) x.

(** The integer tempos of [1, 300] at which the round trip is off by one
    ulp. *)
Definition roundtrip_failures : list nat :=
  [31; 62; 123; 124; 125; 245; 246; 247; 248; 249; 250]%nat.

(** Check of [roundtrips] against [roundtrip_failures] on [lo, lo + k). *)
Fixpoint check_range (lo k : nat) {struct k} : bool :=
  match k with
  | O => true
  | S k' =>
      Bool.eqb (roundtrips (of_nat lo)) (negb (existsb (Nat.eqb lo) roundtrip_failures))
      && check_range (S lo) k'
  end.

Close Scope float_scope.

Lemma check_range_spec lo k :
  check_range lo k = true ->
  forall n, lo <= n < lo + k ->
  roundtrips (of_nat n) = negb (existsb (Nat.eqb n) roundtrip_failures).
Proof.
  revert lo. induction k as [|k IH]; intros lo Hc n Hn; [lia|].
  simpl in Hc. apply andb_prop in Hc as [Hhd Htl].
  destruct (Nat.eq_dec n lo) as [->|Hne].
  - now apply Bool.eqb_prop.
  - apply (IH (S lo)); [exact Htl|lia].
Qed.

Lemma check_range_1_300 : check_range 1 300 = true.
Proof. vm_compute. reflexivity. Qed.

(** C23. The round trip [cpsToBpm (bpmToCps n) === n] holds for an integer
    tempo [n] of [1, 300] exactly when [n] is not one of the eleven values
    of [roundtrip_failures]. *)
Theorem roundtrip_integer_tempos n :
  1 <= n <= 300 ->
  roundtrips (of_nat n) = negb (existsb (Nat.eqb n) roundtrip_failures).
Proof. intros Hn. apply (check_range_spec 1 300 check_range_1_300). lia. Qed.

Lemma roundtrip_integer_tempos_witness :
  roundtrips (of_nat 31) = negb (existsb (Nat.eqb 31) roundtrip_failures).
Proof. apply roundtrip_integer_tempos. lia. Defined.

End Tempo.
