(* ===== verification/Utils.v ===== *)
(** * Utils: the code helpers of [src/src/utils.js]

    [validateCode] (lines 151-182) scans the code once, counting
    parentheses and stopping at the first [)] that has no partner, then
    counts the quote characters.  [stackPatterns] (lines 129-143) wraps
    patterns in Strudel's [stack(...)].  Strings are Rocq strings of 8-bit
    characters: every character the two functions compare is ASCII, so
    iterating over bytes or over code points sees the same parentheses and
    quotes.  The parenthesis counter is a [Z], as the JavaScript number it
    models never leaves the safe integers on a string that fits in
    memory. *)

From S2P Require Import Prelude.
From Stdlib Require Import String Ascii ZArith List Lia Bool.
Import ListNotations.

Module Utils.

Local Open Scope string_scope.
Local Open Scope Z_scope.

(** The characters the helpers compare; the double quote and the line
    feed are given by their codes. *)
Definition lparen : ascii := "(".
Definition rparen : ascii := ")".
Definition squote : ascii := "'".
Definition dquote : ascii := ascii_of_nat 34.
Definition nl : string := String (ascii_of_nat 10) EmptyString.

(** One iteration of [for (const char of code)] on the counter: lines
    157-158. *)
Definition paren_step (c : ascii) (n : Z) : Z :=
  let n1 := if Ascii.eqb c lparen then n + 1 else n in
  if Ascii.eqb c rparen then n1 - 1 else n1.

(** The loop of lines 155-163: the final counter and whether it broke on
    a negative count. *)
Fixpoint paren_scan (n : Z) (s : string) : Z * bool :=
  match s with
  | EmptyString => (n, false)
  | String c s' =>
      let n' := paren_step c n in
      if n' <? 0 then (n', true) else paren_scan n' s'
  end.

(** [(code.match(/c/g) || []).length]. *)
Fixpoint count_char (c : ascii) (s : string) : nat :=
  match s with
  | EmptyString => O
  | String d s' => (if Ascii.eqb d c then 1 else 0) + count_char c s'
  end%nat.

(** [if (cond) errors.push(msg)]. *)
Definition err_if (cond : bool) (msg : string) : list string := if cond then [msg] else [].

Record ValidationResult := mkValidationResult { valid : bool; errors : list string }.

(** [validateCode] (lines 151-182). *)
Definition validateCode (code : string) : ValidationResult :=
  let '(parenCount, broke) := paren_scan 0 code in
  let errs := List.concat
    [err_if broke "Unbalanced parentheses";
     err_if (0 <? parenCount) "Unclosed parentheses";
     err_if (Nat.odd (count_char squote code)) "Unclosed single quotes";
     err_if (Nat.odd (count_char dquote code)) "Unclosed double quotes"] in
  mkValidationResult (Nat.eqb (length errs) 0) errs.

(** [currentCode.slice(0, -1)]: every character but the last. *)
Definition drop_last (s : string) : string := substring 0 (String.length s - 1) s.

(** [stackPatterns] (lines 129-143). *)
Definition stackPatterns (currentCode newInstrument : string) : string :=
  if String.eqb currentCode "" then newInstrument
  else if String.prefix "stack(" currentCode then
    drop_last currentCode ++ "," ++ nl ++ "  " ++ newInstrument ++ nl ++ ")"
  else "stack(" ++ nl ++ "  " ++ currentCode ++ "," ++ nl ++ "  " ++ newInstrument ++ nl ++ ")".

(** ** The reference: balanced parentheses, declaratively *)

(** Opening minus closing parentheses. *)
Definition depth (s : string) : Z :=
  Z.of_nat (count_char lparen s) - Z.of_nat (count_char rparen s).

(** No prefix closes more than it opens, and the whole closes all. *)
Definition balanced (s : string) : Prop :=
  (forall k, 0 <= depth (substring 0 k s)) /\ depth s = 0.

(** ** The scan against the reference *)

Lemma paren_step_add c n : paren_step c n = n + paren_step c 0.
Proof. unfold paren_step. destruct (Ascii.eqb c lparen), (Ascii.eqb c rparen); lia. Qed.

Lemma depth_nil : depth EmptyString = 0.
Proof. reflexivity. Qed.

Lemma depth_cons c t : depth (String c t) = paren_step c 0 + depth t.
Proof.
  unfold depth, paren_step. simpl. rewrite (Ascii.eqb_sym c lparen), (Ascii.eqb_sym c rparen).
  destruct (Ascii.eqb lparen c), (Ascii.eqb rparen c); simpl; lia.
Qed.

Lemma substring_0_length s : substring 0 (String.length s) s = s.
Proof. induction s as [|c s IH]; [reflexivity|]. simpl. now rewrite IH. Qed.

Lemma substring_0_app w x : substring 0 (String.length w) (w ++ x) = w.
Proof. induction w as [|c w IH]; [now destruct x|]. simpl. now rewrite IH. Qed.

(** The loop of [validateCode] computes the reference: it runs to the
    end exactly when no prefix goes below zero, and then ends on the
    depth. *)
Lemma paren_scan_spec s : forall n, 0 <= n ->
  (snd (paren_scan n s) = false <-> forall k, 0 <= n + depth (substring 0 k s)) /\
  (snd (paren_scan n s) = false -> fst (paren_scan n s) = n + depth s).
Proof.
  induction s as [|c t IH]; intros n Hn; cbn [paren_scan fst snd].
  - split; [|intros _; rewrite depth_nil; lia].
    split; [intros _ k; destruct k; cbn [substring]; rewrite ?substring_len_0, depth_nil; lia|easy].
  - rewrite paren_step_add. destruct (n + paren_step c 0 <? 0) eqn:Hneg; cbn [fst snd].
    + apply Z.ltb_lt in Hneg. split; [|easy]. split; [easy|].
      intros Hk. specialize (Hk 1%nat). cbn [substring] in Hk. rewrite substring_len_0, depth_cons, depth_nil in Hk. lia.
    + apply Z.ltb_ge in Hneg. destruct (IH _ Hneg) as [Hiff Hfst]. split.
      * rewrite Hiff. split; intros Hk k.
        -- destruct k as [|k]; [rewrite substring_len_0, depth_nil; lia|]. cbn [substring]. rewrite depth_cons.
           specialize (Hk k). lia.
        -- specialize (Hk (S k)). cbn [substring] in Hk. rewrite depth_cons in Hk. lia.
      * intros Hb. rewrite (Hfst Hb), depth_cons. lia.
Qed.

Lemma balanced_scan s : balanced s <-> paren_scan 0 s = (0, false).
Proof.
  destruct (paren_scan_spec s 0 (Z.le_refl 0)) as [Hiff Hfst].
  destruct (paren_scan 0 s) as [n b] eqn:Hs. simpl in *. split.
  - intros [Hpre Hd]. assert (b = false) as -> by (apply Hiff; exact Hpre).
    rewrite (Hfst eq_refl), Hd. reflexivity.
  - intros [= -> ->]. split; [now apply Hiff|]. specialize (Hfst eq_refl). lia.
Qed.

(** ** Scanning concatenations *)

Lemma paren_scan_app n a b :
  paren_scan n (a ++ b) =
  let '(m, broke) := paren_scan n a in if broke then (m, true) else paren_scan m b.
Proof.
  revert n. induction a as [|c a IH]; intros n; [reflexivity|]. simpl.
  destruct (paren_step c n <? 0); [reflexivity|]. apply IH.
Qed.

Lemma paren_scan_app_ok n a b m :
  paren_scan n a = (m, false) -> paren_scan n (a ++ b) = paren_scan m b.
Proof. intros H. now rewrite paren_scan_app, H. Qed.

(** A counter that starts [k] higher runs the same course [k] higher. *)
Lemma paren_scan_shift s : forall n m k, 0 <= k ->
  paren_scan n s = (m, false) -> paren_scan (n + k) s = (m + k, false).
Proof.
  induction s as [|c t IH]; intros n m k Hk; simpl; [now intros [= ->]|].
  rewrite (paren_step_add c (n + k)), (paren_step_add c n).
  destruct (n + paren_step c 0 <? 0) eqn:Hneg; [discriminate|].
  apply Z.ltb_ge in Hneg. replace (n + k + paren_step c 0 <? 0) with false by lia.
  intros H. replace (n + k + paren_step c 0) with (n + paren_step c 0 + k) by lia.
  now apply IH.
Qed.

(** Text without parentheses leaves a non-negative counter alone. *)
Lemma paren_scan_plain s : forall n, 0 <= n ->
  count_char lparen s = 0%nat -> count_char rparen s = 0%nat -> paren_scan n s = (n, false).
Proof.
  induction s as [|c t IH]; intros n Hn Hl Hr; [reflexivity|]. simpl in *.
  rewrite (Ascii.eqb_sym c lparen) in Hl. rewrite (Ascii.eqb_sym c rparen) in Hr.
  unfold paren_step. rewrite (Ascii.eqb_sym c lparen), (Ascii.eqb_sym c rparen).
  destruct (Ascii.eqb lparen c), (Ascii.eqb rparen c); try discriminate.
  replace (n <? 0) with false by lia. now apply IH.
Qed.

Lemma balanced_shift s k : 0 <= k -> balanced s -> paren_scan k s = (k, false).
Proof. intros Hk Hb%balanced_scan. exact (paren_scan_shift s 0 0 k Hk Hb). Qed.

(** After a scan that ran to the end the counter is the depth, which is
    not negative. *)
Lemma paren_scan_end code n :
  paren_scan 0 code = (n, false) -> n = depth code /\ 0 <= n.
Proof.
  intros Hs. destruct (paren_scan_spec code 0 (Z.le_refl 0)) as [Hiff Hfst].
  rewrite Hs in Hiff, Hfst. cbn [fst snd] in *. specialize (Hfst eq_refl).
  pose proof (proj1 Hiff eq_refl (String.length code)) as Hd.
  rewrite substring_0_length in Hd. lia.
Qed.

(** C21. [validateCode] reports the code valid exactly when its
    parentheses are balanced (no prefix closes more than it opened, and
    all are closed) and it holds an even number of single and of double
    quotes. *)
Theorem validateCode_valid_spec code :
  valid (validateCode code) = true <->
  balanced code /\ Nat.even (count_char squote code) = true /\
  Nat.even (count_char dquote code) = true.
Proof.
  rewrite balanced_scan, <- !Nat.negb_odd. unfold validateCode.
  destruct (paren_scan 0 code) as [n b] eqn:Hs. cbn [valid].
  destruct b; [|destruct (paren_scan_end code n Hs) as [_ Hn]];
    destruct (0 <? n) eqn:Hpos, (Nat.odd (count_char squote code)),
      (Nat.odd (count_char dquote code)); cbn;
    split; intros H; try discriminate; try easy;
    first [ split; [f_equal; lia|easy]
          | destruct H as ([= Hn0] & _); subst n; cbn in Hpos; discriminate
          | destruct H as ([= _ Hb] & _); discriminate ].
Qed.

Lemma count_char_app c a b : count_char c (a ++ b) = (count_char c a + count_char c b)%nat.
Proof. induction a as [|d a IH]; simpl; [reflexivity|rewrite IH; lia]. Qed.

Lemma string_length_app a b : String.length (a ++ b) = (String.length a + String.length b)%nat.
Proof. induction a as [|c a IH]; simpl; [reflexivity|now rewrite IH]. Qed.

Lemma drop_last_snoc w c : drop_last (w ++ String c "") = w.
Proof.
  unfold drop_last. rewrite string_length_app. simpl.
  replace (String.length w + 1 - 1)%nat with (String.length w) by lia. apply substring_0_app.
Qed.

Lemma snoc_nonempty w c : String.eqb (w ++ String c "") "" = false.
Proof. now destruct w. Qed.

(** Balanced code that ends in [)] is, without it, one level deep. *)
Lemma balanced_close w : balanced (w ++ ")") -> paren_scan 0 w = (1, false).
Proof.
  intros Hb%balanced_scan. rewrite paren_scan_app in Hb.
  destruct (paren_scan 0 w) as [m [|]] eqn:Hw; [discriminate|].
  cbn in Hb. destruct (m - 1 <? 0); [discriminate|].
  injection Hb as Hm. now replace m with 1 by lia.
Qed.

(** Balanced code that ends in a character other than a parenthesis is
    balanced without it. *)
Lemma balanced_drop_plain w c :
  Ascii.eqb c lparen = false -> Ascii.eqb c rparen = false ->
  balanced (w ++ String c "") -> paren_scan 0 w = (0, false).
Proof.
  intros Hl Hr Hb%balanced_scan. rewrite paren_scan_app in Hb.
  destruct (paren_scan 0 w) as [m [|]] eqn:Hw; [discriminate|].
  cbn [paren_scan] in Hb. unfold paren_step in Hb. rewrite Hl, Hr in Hb.
  destruct (m <? 0); [discriminate|]. now injection Hb as ->.
Qed.

(** Scan a concatenation piece by piece: a piece without parentheses, a
    balanced piece, or a literal piece computed outright. *)
Ltac scan_piece :=
  first
    [ erewrite paren_scan_app_ok; [|apply paren_scan_plain; [lia|reflexivity|reflexivity]]
    | erewrite paren_scan_app_ok; [|apply balanced_shift; [lia|eassumption]]
    | erewrite paren_scan_app_ok; [|eassumption]
    | erewrite paren_scan_app_ok; [|cbv; reflexivity] ].

(** C22. [stackPatterns] keeps the parentheses balanced: stacking a
    balanced instrument onto balanced code gives balanced code, provided
    that code, when it is already a [stack(...)], ends in the [)] that
    [slice(0, -1)] removes. *)
Theorem stackPatterns_balanced cur new :
  balanced cur -> balanced new ->
  (String.prefix "stack(" cur = true -> exists w, cur = w ++ ")") ->
  balanced (stackPatterns cur new).
Proof.
  intros Hc Hn Hst. unfold stackPatterns.
  destruct (String.eqb cur "") eqn:He; [exact Hn|].
  apply balanced_scan. destruct (String.prefix "stack(" cur) eqn:Hp.
  - destruct (Hst eq_refl) as [w ->]. rewrite (drop_last_snoc w ")").
    pose proof (balanced_close w Hc) as Hw.
    repeat scan_piece. reflexivity.
  - change ("stack(" ++ nl ++ "  " ++ cur ++ "," ++ nl ++ "  " ++ new ++ nl ++ ")")
      with ("stack(" ++ (nl ++ ("  " ++ (cur ++ ("," ++ (nl ++ ("  " ++ (new ++ (nl ++ ")"))))))))).
    repeat scan_piece. reflexivity.
Qed.

(** C24. [slice(0, -1)] removes the last character whatever it is: when
    a balanced [stack(...)] is followed by any character that is not a
    parenthesis (a line break, a space, the end of a trailing comment),
    that character is removed instead of the closing [)], and the stacked
    code is unbalanced whatever balanced instrument is added. *)
Theorem stackPatterns_unbalanced_tail w c new :
  String.prefix "stack(" (w ++ String c "") = true ->
  Ascii.eqb c lparen = false -> Ascii.eqb c rparen = false ->
  balanced (w ++ String c "") -> balanced new ->
  ~ balanced (stackPatterns (w ++ String c "") new).
Proof.
  intros Hp Hl Hr Hc Hn. pose proof (balanced_drop_plain w c Hl Hr Hc) as Hw.
  unfold stackPatterns. rewrite snoc_nonempty, Hp, drop_last_snoc, balanced_scan.
  assert (Hs : paren_scan 0 (w ++ "," ++ nl ++ "  " ++ new ++ nl ++ ")") = (-1, true)).
  { repeat scan_piece. reflexivity. }
  rewrite Hs. discriminate.
Qed.

(** C25. [validateCode] counts the quotes of comments as code: a line
    comment with an odd number of apostrophes, appended to code whose
    single quotes are paired, always makes it invalid with "Unclosed
    single quotes", although the comment does not change the program. *)
Theorem validateCode_counts_comments code t :
  Nat.even (count_char squote code) = true -> Nat.odd (count_char squote t) = true ->
  valid (validateCode (code ++ " // " ++ t)) = false /\
  In "Unclosed single quotes" (errors (validateCode (code ++ " // " ++ t))).
Proof.
  intros He Ho. unfold validateCode. destruct (paren_scan 0 _) as [n b].
  replace (Nat.odd (count_char squote (code ++ " // " ++ t))) with true.
  - destruct b, (0 <? n), (Nat.odd (count_char dquote _)); cbn; intuition.
  - rewrite !count_char_app, Nat.odd_add, Nat.odd_add, <- Nat.negb_even, He, Ho. reflexivity.
Qed.

(** ** The theorems at sample code *)

Lemma stackPatterns_balanced_witness :
  balanced (stackPatterns "stack(s(bd))" "s(hh)").
Proof.
  apply stackPatterns_balanced;
    [apply balanced_scan; vm_compute; reflexivity|apply balanced_scan; vm_compute; reflexivity|].
  intros _. exists "stack(s(bd)". reflexivity.
Defined.

Lemma stackPatterns_unbalanced_tail_witness :
  ~ balanced (stackPatterns ("stack(s(bd))" ++ String (ascii_of_nat 10) "") "s(hh)").
Proof.
  apply stackPatterns_unbalanced_tail;
    [vm_compute; reflexivity|vm_compute; reflexivity|vm_compute; reflexivity
    |apply balanced_scan; vm_compute; reflexivity|apply balanced_scan; vm_compute; reflexivity].
Defined.

Lemma validateCode_counts_comments_witness :
  valid (validateCode ("note(c3)" ++ " // " ++ "don't")) = false /\
  In "Unclosed single quotes" (errors (validateCode ("note(c3)" ++ " // " ++ "don't"))).
Proof. apply validateCode_counts_comments; vm_compute; reflexivity. Defined.

End Utils.
