(* ===== verification/Bridge.v ===== *)
(** * Bridge: the command bridge of [src/src/strudel.js]

    The six exported operations of strudel.js, written against the
    [PageProvider] interface of the session (strudel.js imports only
    [getPage]); [session_provider] instantiates it with browser.js's
    [getPage].  Each operation is the sequence of driver calls the code
    issues, with its [try]/[catch] and the message prefix of its
    rethrow. *)

From S2P Require Import Prelude Session Tempo.
From stdpp Require Import base strings gmap list.
From Stdlib Require Import PrimFloat NArith.

Open Scope st_scope.

Module Bridge.
Import Session.

Record ExecResult := mkExecResult { er_success : bool; er_code : string; er_playing : bool }.
Record PlayResult := mkPlayResult { pr_success : bool; pr_playing : bool }.
Record TempoResult := mkTempoResult { tr_success : bool; tr_bpm : float; tr_cps : float }.

(** The JavaScript value [page.evaluate] resolves with, read as a string
    or a boolean. *)
Definition as_string (v : JsVal) : string := match v with VStr s => s | _ => "" end.
Definition as_bool (v : JsVal) : bool := match v with VBool b => b | _ => false end.

Definition execute_prefix : string := "Failed to execute pattern: ".
Definition stop_prefix : string := "Failed to stop playback: ".
Definition start_prefix : string := "Failed to start playback: ".
Definition tempo_prefix : string := "Failed to set tempo: ".

Section Ops.
Context `{PageProvider}.

(** [executePattern(code)] (lines 17-74). *)
Definition executePattern (code : string) : M ExecResult :=
  st_rethrow execute_prefix (
    let* p := provide_page in
    drv_evaluate p (SSetContent code) ;;;
    drv_waitForTimeout p 200 ;;;
    drv_keyDown p "Control" ;;;
    drv_keyPress p "Enter" ;;;
    drv_keyUp p "Control" ;;;
    drv_waitForTimeout p 500 ;;;
    ret (mkExecResult true code true)).

(** [stopPlayback()] (lines 81-104). *)
Definition stopPlayback : M PlayResult :=
  st_rethrow stop_prefix (
    let* p := provide_page in
    drv_keyDown p "Control" ;;;
    drv_keyPress p "Period" ;;;
    drv_keyUp p "Control" ;;;
    drv_waitForTimeout p 200 ;;;
    ret (mkPlayResult true false)).

(** [startPlayback()] (lines 111-134). *)
Definition startPlayback : M PlayResult :=
  st_rethrow start_prefix (
    let* p := provide_page in
    drv_keyDown p "Control" ;;;
    drv_keyPress p "Enter" ;;;
    drv_keyUp p "Control" ;;;
    drv_waitForTimeout p 500 ;;;
    ret (mkPlayResult true true)).

(** [getCurrentCode()] (lines 141-164): failures read as [''] *)
Definition getCurrentCode : M string :=
  st_catch (let* p := provide_page in
            let* v := drv_evaluate p SGetContent in
            ret (as_string v))
           (fun _ => ret "").

(** [isPlaying()] (lines 171-186): failures read as [false] *)
Definition isPlaying : M bool :=
  st_catch (let* p := provide_page in
            let* v := drv_evaluate p SQueryPlaying in
            ret (as_bool v))
           (fun _ => ret false).

(** [setTempo(bpm)] (lines 194-227). *)
Definition setTempo (bpm : float) : M TempoResult :=
  st_rethrow tempo_prefix (
    let* p := provide_page in
    let cps := (bpm / 60 / 4)%float in
    drv_evaluate p (SSetcps cps) ;;;
    drv_waitForTimeout p 200 ;;;
    ret (mkTempoResult true bpm cps)).
End Ops.

(** The driver calls [executePattern] issues on page [p] once it has it. *)
Definition execute_actions (p : nat) (code : string) : list Action :=
  [AEvaluate p (SSetContent code); AWaitForTimeout p 200; AKeyDown p "Control";
   AKeyPress p "Enter"; AKeyUp p "Control"; AWaitForTimeout p 500].

Definition stop_actions (p : nat) : list Action :=
  [AKeyDown p "Control"; AKeyPress p "Period"; AKeyUp p "Control"; AWaitForTimeout p 200].

Definition start_actions (p : nat) : list Action :=
  [AKeyDown p "Control"; AKeyPress p "Enter"; AKeyUp p "Control"; AWaitForTimeout p 500].

(** The text [getCurrentCode] reads from a document. *)
Definition read_back (d : Dom) : string :=
  match fst (run_script SGetContent d) with Ok v => as_string v | Err _ => "" end.

(** A caller that keeps calling [executePattern]: the results, in order. *)
Fixpoint execute_all `{PageProvider} (codes : list string) (w : World)
    : list (res ExecResult) * World :=
  match codes with
  | [] => ([], w)
  | c :: cs =>
      let '(r, w1) := executePattern c w in
      let '(rs, w2) := execute_all cs w1 in
      (r :: rs, w2)
  end.

(** The running session's tab showing the [.cm-editor] element but
    neither a CodeMirror view nor a textarea. *)
Definition world_bare_editor : World :=
  set_dom_w 1 (mkDom true None None false true None) world_running.

(** The session of browser.js as the bridge's page provider. *)
#[export] Program Instance session_provider : PageProvider := {|
  provide_page := getPage;
|}.
Next Obligation. exact wf_getPage. Qed.
Next Obligation.
  intros w p w' Hwf Hg. destruct (w_page w) as [q|] eqn:Hp.
  - rewrite (getPage_stored w q Hp) in Hg. injection Hg as -> <-. done.
  - by apply (getPage_launches w p w').
Qed.
Next Obligation. intros w p Hp _. by apply getPage_stored. Qed.

(** ** Driver calls on a page that answers *)

Lemma page_alive_log a w p : page_alive (log_w a w) p = page_alive w p.
Proof. reflexivity. Qed.
Lemma page_alive_set_dom q d w p : page_alive (set_dom_w q d w) p = page_alive w p.
Proof. reflexivity. Qed.
Lemma w_dom_log a w : w_dom (log_w a w) = w_dom w.
Proof. reflexivity. Qed.
Lemma w_dom_set_dom q d w : w_dom (set_dom_w q d w) = <[q:=d]> (w_dom w).
Proof. reflexivity. Qed.
Lemma w_page_log a w : w_page (log_w a w) = w_page w.
Proof. reflexivity. Qed.
Lemma w_page_set_dom q d w : w_page (set_dom_w q d w) = w_page w.
Proof. reflexivity. Qed.
Lemma w_log_log a w : w_log (log_w a w) = w_log w ++ [a].
Proof. reflexivity. Qed.
Lemma w_log_set_dom q d w : w_log (set_dom_w q d w) = w_log w.
Proof. reflexivity. Qed.

Create Rewrite HintDb world_rw.
#[export] Hint Rewrite page_alive_log page_alive_set_dom w_dom_log w_dom_set_dom
  w_page_log w_page_set_dom w_log_log w_log_set_dom : world_rw.

(** Run the driver calls of a bridge operation once the provider has
    answered: unfold the calls, then rewrite the world's projections. *)
Ltac bridge_run :=
  cbv [executePattern stopPlayback startPlayback getCurrentCode isPlaying setTempo
       drv_evaluate drv_keyDown drv_keyPress drv_keyUp drv_waitForTimeout require_alive
       emit st_bind st_catch st_rethrow st_ret st_get st_modify st_throw as_string as_bool];
  repeat (progress (autorewrite with world_rw in *; cbv beta iota zeta)).

(** A successful read of [getCurrentCode]'s textarea fallback:
    [textarea?.value || ''] is the value itself. *)
Lemma or_empty_id (v : string) : (if String.eqb v "" then "" else v) = v.
Proof. destruct (String.eqb_spec v ""); congruence. Qed.

(** The document after [SSetContent], as [getCurrentCode] reads it back. *)
Lemma set_content_read code d :
  dom_editor d = true -> (is_Some (dom_view d) \/ is_Some (dom_textarea d)) ->
  run_script SGetContent (snd (run_script (SSetContent code) d)) =
    (Ok (VStr code), snd (run_script (SSetContent code) d)).
Proof.
  intros He Hv. destruct d as [ed [doc|] [t|] pl sc cps]; simpl in *; subst ed; simpl;
    rewrite ?cm_replace_full, ?or_empty_id; try done.
  destruct Hv as [[] | []]; discriminate.
Qed.

Lemma evaluate_step w p s d r d' :
  page_alive w p = true -> w_dom w !! p = Some d -> run_script s d = (r, d') ->
  drv_evaluate p s w = (r, set_dom_w p d' (log_w (AEvaluate p s) w)).
Proof.
  intros Ha Hd Hr. cbv [drv_evaluate require_alive emit st_bind st_modify st_get st_throw st_ret].
  change (page_alive (log_w ?a w) p) with (page_alive w p). rewrite Ha.
  change (w_dom (log_w ?a w)) with (w_dom w). rewrite Hd, Hr. by destruct r.
Qed.

Lemma evaluate_dead w p s :
  page_alive w p = false -> drv_evaluate p s w = (Err target_closed, log_w (AEvaluate p s) w).
Proof.
  intros Ha. cbv [drv_evaluate require_alive emit st_bind st_modify st_get st_throw st_ret].
  change (page_alive (log_w ?a w) p) with (page_alive w p). by rewrite Ha.
Qed.

Ltac key_step_t :=
  intros Ha; cbv [drv_keyDown drv_keyPress drv_keyUp require_alive emit st_bind st_modify
                  st_get st_throw st_ret];
  change (page_alive (log_w ?a ?w) ?p) with (page_alive w p); by rewrite Ha.

Lemma keyDown_step w p k : page_alive w p = true -> drv_keyDown p k w = (Ok tt, log_w (AKeyDown p k) w).
Proof. key_step_t. Qed.
Lemma keyPress_step w p k : page_alive w p = true -> drv_keyPress p k w = (Ok tt, log_w (AKeyPress p k) w).
Proof. key_step_t. Qed.
Lemma keyUp_step w p k : page_alive w p = true -> drv_keyUp p k w = (Ok tt, log_w (AKeyUp p k) w).
Proof. key_step_t. Qed.
Lemma keyDown_dead w p k :
  page_alive w p = false -> drv_keyDown p k w = (Err target_closed, log_w (AKeyDown p k) w).
Proof. key_step_t. Qed.
Lemma wait_step w p ms : drv_waitForTimeout p ms w = (Ok tt, log_w (AWaitForTimeout p ms) w).
Proof. reflexivity. Qed.

Create HintDb bridge_steps discriminated.
#[export] Hint Resolve keyDown_step keyPress_step keyUp_step wait_step : bridge_steps.

(** Run a chain of key presses and waits on a page that answers. *)
Ltac chain := repeat (erewrite st_bind_Ok; [cbv beta|solve [eauto with bridge_steps]]).

Lemma set_content_ok code d :
  dom_editor d = true -> run_script (SSetContent code) d = (Ok VUndef, snd (run_script (SSetContent code) d)).
Proof. intros He. destruct d as [ed [doc|] [t|] pl sc cps]; simpl in *; by subst ed. Qed.

Lemma setcps_ok c d : run_script (SSetcps c) d = (Ok VUndef, snd (run_script (SSetcps c) d)).
Proof. simpl. by destruct (dom_setcps d). Qed.

Lemma get_content_ok d : run_script SGetContent d = (fst (run_script SGetContent d), d) /\
  exists v, fst (run_script SGetContent d) = Ok (VStr v).
Proof. destruct d as [[] [doc|] [t|] pl sc cps]; simpl; eauto. Qed.

(** A logged chain of driver calls, oldest first. *)
Lemma w_log_chain w (acts : list Action) :
  w_log (foldl (fun w a => log_w a w) w acts) = w_log w ++ acts.
Proof.
  revert w. induction acts as [|a acts IH]; intros w; simpl; [by rewrite app_nil_r|].
  rewrite IH. simpl. by rewrite <- app_assoc.
Qed.

Section Laws.
Context `{PageProvider}.

(** [executePattern] on a stored page that answers and shows the editor. *)
Lemma executePattern_eval w p d code :
  w_page w = Some p -> page_alive w p = true -> w_dom w !! p = Some d -> dom_editor d = true ->
  exists w', executePattern code w = (Ok (mkExecResult true code true), w') /\
    w_page w' = Some p /\ page_alive w' p = true /\
    w_dom w' !! p = Some (snd (run_script (SSetContent code) d)) /\
    w_log w' = w_log w ++ execute_actions p code.
Proof.
  intros Hp Ha Hd He. pose proof (provide_page_stored w p Hp Ha) as Hprov.
  unfold executePattern. eexists; split.
  { apply st_rethrow_Ok. rewrite (st_bind_Ok _ _ _ _ _ Hprov). cbv beta.
    erewrite st_bind_Ok;
      [cbv beta|apply (evaluate_step _ _ _ d); [exact Ha|exact Hd|apply set_content_ok, He]].
    chain. reflexivity. }
  split_and!; [done|exact Ha| |].
  - autorewrite with world_rw. by rewrite lookup_insert_eq.
  - autorewrite with world_rw. by rewrite <- !app_assoc.
Qed.

(** [getCurrentCode] on a stored page that answers. *)
Lemma getCurrentCode_eval w p d :
  w_page w = Some p -> page_alive w p = true -> w_dom w !! p = Some d ->
  exists w', getCurrentCode w = (Ok (read_back d), w') /\ w_page w' = Some p.
Proof.
  intros Hp Ha Hd. pose proof (provide_page_stored w p Hp Ha) as Hprov.
  destruct (get_content_ok d) as [Hrun [v Hv]]. unfold read_back. rewrite Hv.
  unfold getCurrentCode, st_catch at 1. rewrite (st_bind_Ok _ _ _ _ _ Hprov). cbv beta.
  rewrite Hv in Hrun.
  erewrite st_bind_Ok; [cbv beta|apply (evaluate_step _ _ _ d); [exact Ha|exact Hd|exact Hrun]].
  by eexists.
Qed.

(** C4. Ordering: on a stored page that answers and shows the editor,
    [executePattern] resolves with [{success: true, code, playing: true}]
    after issuing exactly: set the content, wait 200 ms, Control down,
    Enter, Control up, wait 500 ms. *)
Theorem executePattern_actions w p d code :
  w_page w = Some p -> page_alive w p = true -> w_dom w !! p = Some d -> dom_editor d = true ->
  exists w', executePattern code w = (Ok (mkExecResult true code true), w') /\
    w_log w' = w_log w ++ execute_actions p code.
Proof.
  intros Hp Ha Hd He.
  destruct (executePattern_eval w p d code Hp Ha Hd He) as (w' & Hex & _ & _ & _ & Hl).
  by exists w'.
Qed.

(** C2. Round trip: after [executePattern code] on an editor with a CodeMirror
    view or a textarea, [getCurrentCode] reads back exactly [code]: the
    content is replaced, not appended to. *)
Theorem executePattern_getCurrentCode w p d code :
  w_page w = Some p -> page_alive w p = true -> w_dom w !! p = Some d -> dom_editor d = true ->
  (is_Some (dom_view d) \/ is_Some (dom_textarea d)) ->
  exists w1 w2, executePattern code w = (Ok (mkExecResult true code true), w1) /\
    getCurrentCode w1 = (Ok code, w2).
Proof.
  intros Hp Ha Hd He Hv.
  destruct (executePattern_eval w p d code Hp Ha Hd He) as (w1 & Hex & Hp1 & Ha1 & Hd1 & _).
  destruct (getCurrentCode_eval w1 p _ Hp1 Ha1 Hd1) as (w2 & Hg & _).
  exists w1, w2. split; [done|]. rewrite Hg. unfold read_back.
  by rewrite (set_content_read code d He Hv).
Qed.

(** Without the [.cm-editor] element, [executePattern] rejects with
    "Failed to execute pattern: Editor not found". *)
Theorem executePattern_no_editor w p d code :
  w_page w = Some p -> page_alive w p = true -> w_dom w !! p = Some d -> dom_editor d = false ->
  exists w', executePattern code w = (Err (execute_prefix +:+ editor_not_found), w').
Proof.
  intros Hp Ha Hd He. pose proof (provide_page_stored w p Hp Ha) as Hprov.
  unfold executePattern. eexists. apply st_rethrow_Err.
  rewrite (st_bind_Ok _ _ _ _ _ Hprov). cbv beta.
  erewrite st_bind_Err; [done|]. apply (evaluate_step _ _ _ d); [exact Ha|exact Hd|].
  destruct d; simpl in *; by subst.
Qed.

(** C17. With the editor element but neither a CodeMirror view nor a
    textarea, [executePattern] changes nothing in the page and still
    reports success; [getCurrentCode] then reads [''] whatever [code]
    was. *)
Theorem executePattern_silent_noop w p d code :
  w_page w = Some p -> page_alive w p = true -> w_dom w !! p = Some d -> dom_editor d = true ->
  dom_view d = None -> dom_textarea d = None ->
  exists w1 w2, executePattern code w = (Ok (mkExecResult true code true), w1) /\
    getCurrentCode w1 = (Ok "", w2).
Proof.
  intros Hp Ha Hd He Hv Ht.
  destruct (executePattern_eval w p d code Hp Ha Hd He) as (w1 & Hex & Hp1 & Ha1 & Hd1 & _).
  destruct (getCurrentCode_eval w1 p _ Hp1 Ha1 Hd1) as (w2 & Hg & _).
  exists w1, w2. split; [done|]. rewrite Hg. unfold read_back.
  destruct d; simpl in *; by subst.
Qed.

(** C18. [getCurrentCode] and [isPlaying] never pass a failure on: when
    the page provider rejects, or the page it returns does not answer the
    script, they resolve with [''] and [false], and the world is the one
    the failed step left. *)
Theorem introspection_fallback w :
  (forall e w1, provide_page w = (Err e, w1) ->
     getCurrentCode w = (Ok "", w1) /\ isPlaying w = (Ok false, w1)) /\
  (forall p w1, provide_page w = (Ok p, w1) -> page_alive w1 p = false ->
     getCurrentCode w = (Ok "", log_w (AEvaluate p SGetContent) w1) /\
     isPlaying w = (Ok false, log_w (AEvaluate p SQueryPlaying) w1)).
Proof.
  unfold getCurrentCode, isPlaying, st_catch. split.
  - intros e w1 Hp. by rewrite (st_bind_Err _ _ _ _ _ Hp), (st_bind_Err _ _ _ _ _ Hp).
  - intros p w1 Hp Hd.
    rewrite (st_bind_Ok _ _ _ _ _ Hp), (st_bind_Ok _ _ _ _ _ Hp). cbv beta.
    by rewrite (st_bind_Err _ _ _ _ _ (evaluate_dead w1 p SGetContent Hd)),
      (st_bind_Err _ _ _ _ _ (evaluate_dead w1 p SQueryPlaying Hd)).
Qed.

(** [isPlaying] reports the page's [data-playing] marker. *)
Theorem isPlaying_marker w p d :
  w_page w = Some p -> page_alive w p = true -> w_dom w !! p = Some d ->
  exists w', isPlaying w = (Ok (dom_playing d), w').
Proof.
  intros Hp Ha Hd. pose proof (provide_page_stored w p Hp Ha) as Hprov.
  unfold isPlaying, st_catch at 1. rewrite (st_bind_Ok _ _ _ _ _ Hprov). cbv beta.
  erewrite st_bind_Ok; [cbv beta|apply (evaluate_step _ _ _ d); [exact Ha|exact Hd|reflexivity]].
  by eexists.
Qed.

(** C19. [stopPlayback] and [startPlayback] press Control+Period and
    Control+Enter, wait 200 and 500 ms, and report [playing] false and
    true. *)
Theorem playback_actions w p :
  w_page w = Some p -> page_alive w p = true ->
  (exists w', stopPlayback w = (Ok (mkPlayResult true false), w') /\
     w_log w' = w_log w ++ stop_actions p) /\
  (exists w', startPlayback w = (Ok (mkPlayResult true true), w') /\
     w_log w' = w_log w ++ start_actions p).
Proof.
  intros Hp Ha. pose proof (provide_page_stored w p Hp Ha) as Hprov.
  split; eexists; split.
  1,3: unfold stopPlayback, startPlayback; apply st_rethrow_Ok;
    rewrite (st_bind_Ok _ _ _ _ _ Hprov); cbv beta; chain; reflexivity.
  all: autorewrite with world_rw; by rewrite <- !app_assoc.
Qed.

(** [startPlayback] touches nothing but the log. *)
Lemma startPlayback_world w p :
  w_page w = Some p -> page_alive w p = true ->
  exists w', startPlayback w = (Ok (mkPlayResult true true), w') /\
    w_page w' = w_page w /\ w_dom w' = w_dom w /\ page_alive w' p = true.
Proof.
  intros Hp Ha. pose proof (provide_page_stored w p Hp Ha) as Hprov.
  eexists; split.
  { unfold startPlayback. apply st_rethrow_Ok.
    rewrite (st_bind_Ok _ _ _ _ _ Hprov). cbv beta. chain. reflexivity. }
  autorewrite with world_rw. by split_and!.
Qed.

(** C20. [setTempo bpm] hands the page [bpm / 60 / 4], which is
    [Tempo.bpmToCps bpm]; it resolves even when the page has no
    [setcps] (the page-side [try] swallows it), and then the page's
    tempo is unchanged. *)
Theorem setTempo_cps w p d bpm :
  w_page w = Some p -> page_alive w p = true -> w_dom w !! p = Some d ->
  exists w', setTempo bpm w = (Ok (mkTempoResult true bpm (Tempo.bpmToCps bpm)), w') /\
    option_map dom_cps (w_dom w' !! p) =
      Some (if dom_setcps d then Some (Tempo.bpmToCps bpm) else dom_cps d).
Proof.
  intros Hp Ha Hd. pose proof (provide_page_stored w p Hp Ha) as Hprov.
  unfold setTempo. eexists; split.
  { apply st_rethrow_Ok. rewrite (st_bind_Ok _ _ _ _ _ Hprov). cbv beta.
    erewrite st_bind_Ok; [cbv beta|apply (evaluate_step _ _ _ d); [exact Ha|exact Hd|apply setcps_ok]].
    chain. reflexivity. }
  autorewrite with world_rw. rewrite lookup_insert_eq. simpl. by destruct (dom_setcps d).
Qed.
End Laws.

(** ** The bridge keeps the session well formed *)
Section Invariant.
Context `{PageProvider}.

Lemma wf_provide : st_preserves session_wf provide_page.
Proof. apply provide_page_wf. Qed.
#[local] Hint Resolve wf_provide : strudel.

Lemma wf_bridge_ops code bpm :
  st_preserves session_wf (executePattern code) /\ st_preserves session_wf stopPlayback /\
  st_preserves session_wf startPlayback /\ st_preserves session_wf getCurrentCode /\
  st_preserves session_wf isPlaying /\ st_preserves session_wf (setTempo bpm).
Proof.
  unfold executePattern, stopPlayback, startPlayback, getCurrentCode, isPlaying, setTempo.
  split_and!; st_preserves_t.
Qed.
End Invariant.


(** ** The bridge over browser.js's [getPage] *)

Lemma executePattern_dead w p code :
  w_page w = Some p -> page_alive w p = false ->
  executePattern code w =
    (Err (execute_prefix +:+ target_closed), log_w (AEvaluate p (SSetContent code)) w).
Proof.
  intros Hp Hd. unfold executePattern. apply st_rethrow_Err.
  rewrite (st_bind_Ok _ _ _ _ _ (getPage_stored w p Hp)). cbv beta.
  by erewrite st_bind_Err; [|apply evaluate_dead].
Qed.

(** C5. No self-healing in the bridge: once the stored page has stopped
    answering, every later [executePattern] rejects with the driver's
    "Target closed", however many times the caller retries, because
    [getPage] never probes the stored page. *)
Theorem dead_page_never_recovers codes w p :
  w_page w = Some p -> page_alive w p = false ->
  fst (execute_all codes w) = map (fun _ => Err (execute_prefix +:+ target_closed)) codes.
Proof.
  revert w. induction codes as [|c cs IH]; intros w Hp Hd; [done|].
  simpl. rewrite (executePattern_dead w p c Hp Hd).
  specialize (IH (log_w (AEvaluate p (SSetContent c)) w) Hp Hd).
  destruct (execute_all cs _) as [rs w2]. simpl in *. by rewrite IH.
Qed.

(** C10. A navigation failure during the first [executePattern] is reported as
    such, but it leaves a blank tab stored as [page]; the next call uses
    that tab without relaunching and fails with "Editor not found". *)
Theorem failed_navigation_then_editor_not_found w m code1 code2 :
  session_wf w -> w_page w = None -> w_env w (w_attempts w) = FailGoto m ->
  exists w1 w2,
    executePattern code1 w = (Err (execute_prefix +:+ (launch_failed_prefix +:+ m)), w1) /\
    executePattern code2 w1 = (Err (execute_prefix +:+ editor_not_found), w2).
Proof.
  intros Hwf Hp Henv.
  destruct (fresh_launch_fail_goto w (proj1 Hwf) m Henv)
    as (w1 & Hf & Hb1 & Hp1 & Ho1 & Hown1 & Hc1 & Hd1).
  assert (Hl : getPage w = (Err (launch_failed_prefix +:+ m), w1)).
  { unfold getPage. rewrite st_bind_get, Hp. unfold st_bind at 1.
    by rewrite launchBrowser_no_page, Hf. }
  assert (Ha1 : page_alive w1 (S (w_next w)) = true).
  { eapply page_alive_launched; [exact Hown1|set_solver|exact Hc1|].
    apply alloc_fresh_crashed; [apply Hwf|lia]. }
  destruct (executePattern_no_editor w1 (S (w_next w)) blank_dom code2 Hp1 Ha1 Hd1 eq_refl)
    as (w2 & Hw2).
  exists w1, w2. split; [|exact Hw2].
  unfold executePattern. apply st_rethrow_Err. apply (st_bind_Err _ _ _ _ _ Hl).
Qed.

(** ** The theorems at the sample worlds *)

Lemma executePattern_getCurrentCode_witness :
  exists w1 w2, executePattern "note c3" world_running =
    (Ok (mkExecResult true "note c3" true), w1) /\ getCurrentCode w1 = (Ok "note c3", w2).
Proof.
  apply (executePattern_getCurrentCode world_running 1 (strudel_dom "") "note c3");
    [vm_compute; reflexivity..|left; vm_compute; eexists; reflexivity].
Defined.

Lemma executePattern_actions_witness :
  exists w', executePattern "note c3" world_running =
    (Ok (mkExecResult true "note c3" true), w') /\
    w_log w' = w_log world_running ++ execute_actions 1 "note c3".
Proof. apply (executePattern_actions world_running 1 (strudel_dom "")); vm_compute; reflexivity. Defined.

Lemma dead_page_never_recovers_witness :
  fst (execute_all ["note c3"; "note e3"] world_dead_page) =
    map (fun _ => Err (execute_prefix +:+ target_closed)) ["note c3"; "note e3"].
Proof. apply (dead_page_never_recovers ["note c3"; "note e3"] world_dead_page 1); vm_compute; reflexivity. Defined.

Lemma failed_navigation_then_editor_not_found_witness :
  exists w1 w2,
    executePattern "note c3" world_goto_fails =
      (Err (execute_prefix +:+ (launch_failed_prefix +:+
              "Navigation timeout of 30000 ms exceeded")), w1) /\
    executePattern "note e3" w1 = (Err (execute_prefix +:+ editor_not_found), w2).
Proof.
  apply failed_navigation_then_editor_not_found;
    [apply (bool_decide_unpack _); vm_compute; reflexivity|vm_compute; reflexivity..].
Defined.

Lemma executePattern_silent_noop_witness :
  exists w1 w2, executePattern "note c3" world_bare_editor =
    (Ok (mkExecResult true "note c3" true), w1) /\ getCurrentCode w1 = (Ok "", w2).
Proof.
  apply (executePattern_silent_noop world_bare_editor 1 (mkDom true None None false true None)); vm_compute; reflexivity.
Defined.

Lemma playback_actions_witness :
  (exists w', stopPlayback world_running = (Ok (mkPlayResult true false), w') /\
     w_log w' = w_log world_running ++ stop_actions 1) /\
  (exists w', startPlayback world_running = (Ok (mkPlayResult true true), w') /\
     w_log w' = w_log world_running ++ start_actions 1).
Proof. apply playback_actions; vm_compute; reflexivity. Defined.

Lemma setTempo_cps_witness :
  exists w', setTempo 120%float world_running =
      (Ok (mkTempoResult true 120%float (Tempo.bpmToCps 120%float)), w') /\
    option_map dom_cps (w_dom w' !! 1) = Some (Some (Tempo.bpmToCps 120%float)).
Proof. apply (setTempo_cps world_running 1 (strudel_dom "")); vm_compute; reflexivity. Defined.

Lemma introspection_fallback_witness :
  getCurrentCode world_dead_page = (Ok "", log_w (AEvaluate 1 SGetContent) world_dead_page) /\
  isPlaying world_dead_page = (Ok false, log_w (AEvaluate 1 SQueryPlaying) world_dead_page).
Proof.
  apply (proj2 (introspection_fallback world_dead_page) 1 world_dead_page);
    vm_compute; reflexivity.
Defined.

End Bridge.
