(* ===== verification/PatternState.v ===== *)
(** * PatternState: the pattern state of [src/src/state.js]

    state.js keeps one module-level object [state] whose [history] is a
    JavaScript array.  [getState()] returns [{ ...state }], a shallow copy
    that shares that array, so the model keeps arrays in a heap and the
    state holds a reference to its history array.  [new Date()] is the
    environment's clock, [sw_now]. *)

From S2P Require Import Prelude.
From stdpp Require Import base strings gmap list.
From Stdlib Require Import PrimFloat.

Open Scope st_scope.

Module PatternState.

(** The state object (state.js lines 12-18). *)
Record PState := mkPState {
  currentCode : string;
  currentBpm : float;
  isPlaying : bool;
  history : nat;                 (** reference to an array of the heap *)
  lastModified : option string;  (** [null] or an ISO timestamp *)
}.

Record SWorld := mkSWorld {
  sw_state : PState;                 (** [let state] *)
  sw_heap : gmap nat (list string);  (** JavaScript arrays of strings *)
  sw_next : nat;                     (** next fresh array *)
  sw_now : string;                   (** [new Date().toISOString()] *)
  sw_default_bpm : float;            (** [parseInt(process.env.DEFAULT_BPM) || 120] *)
}.

Abbreviation SM := (ST SWorld).

(** The history cap of [setCode] (line 39). *)
Definition history_cap : nat := 50.

Definition with_state (s : PState) (w : SWorld) : SWorld :=
  mkSWorld s (sw_heap w) (sw_next w) (sw_now w) (sw_default_bpm w).
Definition with_array (r : nat) (a : list string) (w : SWorld) : SWorld :=
  mkSWorld (sw_state w) (<[r:=a]> (sw_heap w)) (sw_next w) (sw_now w) (sw_default_bpm w).
(** [[]]: a fresh empty array. *)
Definition alloc_array (w : SWorld) : SWorld :=
  mkSWorld (sw_state w) (<[sw_next w:=[]]> (sw_heap w)) (S (sw_next w)) (sw_now w)
           (sw_default_bpm w).

Definition array_of (w : SWorld) (r : nat) : list string := default [] (sw_heap w !! r).

Definition set_code_field (s : PState) (c : string) (t : string) : PState :=
  mkPState c (currentBpm s) (isPlaying s) (history s) (Some t).
Definition set_bpm_field (s : PState) (b : float) (t : string) : PState :=
  mkPState (currentCode s) b (isPlaying s) (history s) (Some t).
Definition set_playing_field (s : PState) (p : bool) : PState :=
  mkPState (currentCode s) (currentBpm s) p (history s) (lastModified s).
Definition set_history_field (s : PState) (r : nat) : PState :=
  mkPState (currentCode s) (currentBpm s) (isPlaying s) r (lastModified s).

(** [array.push(x)] then, past the cap, [array.shift()]. *)
Definition push_capped (a : list string) (x : string) : list string :=
  let a' := a ++ [x] in
  if decide (history_cap < length a') then drop 1 a' else a'.

(** [getState] (lines 25-27): a shallow copy, sharing [history]. *)
Definition getState : SM PState := st_gets sw_state.

(** [setCode] (lines 34-48). *)
Definition setCode (code : string) : SM unit :=
  let* w := st_get in
  let s := sw_state w in
  (if String.eqb (currentCode s) "" then ret tt
   else st_modify (with_array (history s) (push_capped (array_of w (history s)) (currentCode s))))
  ;;;
  let* w := st_get in
  st_modify (with_state (set_code_field (sw_state w) code (sw_now w))).

(** [setBpm] (lines 55-60). *)
Definition setBpm (bpm : float) : SM unit :=
  let* w := st_get in
  st_modify (with_state (set_bpm_field (sw_state w) bpm (sw_now w))).

(** [setPlaying] (lines 67-71). *)
Definition setPlaying (playing : bool) : SM unit :=
  let* w := st_get in
  st_modify (with_state (set_playing_field (sw_state w) playing)).

(** [getCurrentCode], [getCurrentBpm], [getIsPlaying] (lines 78-98). *)
Definition getCurrentCode : SM string := st_gets (fun w => currentCode (sw_state w)).
Definition getCurrentBpm : SM float := st_gets (fun w => currentBpm (sw_state w)).
Definition getIsPlaying : SM bool := st_gets (fun w => isPlaying (sw_state w)).

(** [getHistory] (lines 105-107): a copy of the array. *)
Definition getHistory : SM (list string) :=
  st_gets (fun w => array_of w (history (sw_state w))).

(** [undo] (lines 114-124): pops the last history entry; [currentCode]
    is left as it is. *)
Definition undo : SM (option string) :=
  let* w := st_get in
  let r := history (sw_state w) in
  match last (array_of w r) with
  | None => ret None
  | Some prev => st_modify (with_array r (removelast (array_of w r))) ;;; ret (Some prev)
  end.

(** [clearHistory] (lines 129-133): a new empty array. *)
Definition clearHistory : SM unit :=
  let* w := st_get in
  st_modify alloc_array ;;;
  st_modify (fun w' => with_state (set_history_field (sw_state w') (sw_next w)) w').

(** [resetState] (lines 138-148): a new state object and array. *)
Definition resetState : SM unit :=
  let* w := st_get in
  st_modify alloc_array ;;;
  st_modify (with_state (mkPState "" (sw_default_bpm w) false (sw_next w) None)).

(** [getLastModified] (lines 155-157). *)
Definition getLastModified : SM (option string) := st_gets (fun w => lastModified (sw_state w)).

(** The module as loaded: the state of lines 12-18 with array 0. *)
Definition initial_world (default_bpm : float) (now : string) : SWorld :=
  mkSWorld (mkPState "" default_bpm false 0 None) {[0 := []]} 1 now default_bpm.

(** ** Sequences of calls *)

(** A call into state.js, or the clock moving on. *)
Inductive StateOp : Type :=
  | OSetCode (code : string)
  | OSetBpm (bpm : float)
  | OSetPlaying (playing : bool)
  | OUndo
  | OClearHistory
  | OResetState
  | OTick (now : string).

Definition tick (now : string) (w : SWorld) : SWorld :=
  mkSWorld (sw_state w) (sw_heap w) (sw_next w) now (sw_default_bpm w).

Definition run_op (o : StateOp) (w : SWorld) : SWorld :=
  match o with
  | OSetCode c => snd (setCode c w)
  | OSetBpm b => snd (setBpm b w)
  | OSetPlaying p => snd (setPlaying p w)
  | OUndo => snd (undo w)
  | OClearHistory => snd (clearHistory w)
  | OResetState => snd (resetState w)
  | OTick t => tick t w
  end.

Definition run_ops (os : list StateOp) (w : SWorld) : SWorld := foldl (fun w o => run_op o w) w os.

(** The abstract history: every previous non-empty code, unbounded. *)
Definition lastn {A} (n : nat) (l : list A) : list A := drop (length l - n) l.

Fixpoint abstract_history (prev : string) (codes : list string) : list string :=
  match codes with
  | [] => []
  | c :: cs => (if String.eqb prev "" then [] else [prev]) ++ abstract_history c cs
  end.

(** The history array is allocated and holds at most 50 entries; every
    array reference is below [sw_next]. *)
Definition state_wf (w : SWorld) : Prop :=
  is_Some (sw_heap w !! history (sw_state w)) /\
  length (array_of w (history (sw_state w))) <= history_cap /\
  (forall r, is_Some (sw_heap w !! r) -> r < sw_next w).

(** Two codes set after loading: the history holds ["a"], the editor
    code is ["b"]. *)
Definition world_two_codes : SWorld :=
  run_ops [OSetCode "a"; OSetCode "b"] (initial_world 120%float "2025-01-01T00:00:00.000Z").

(** ** Lemmas *)

Lemma push_capped_length a x : length a <= history_cap -> length (push_capped a x) <= history_cap.
Proof.
  unfold push_capped. intros Ha. case_decide as Hc.
  - rewrite length_drop, length_app in *. simpl in *. lia.
  - rewrite length_app in *. simpl in *. lia.
Qed.

Lemma lastn_push a x : length a <= history_cap ->
  forall h, a = lastn history_cap h -> push_capped a x = lastn history_cap (h ++ [x]).
Proof.
  intros Ha h ->. unfold push_capped, lastn in *. rewrite length_drop in *.
  rewrite <- drop_app_le by lia.
  case_decide as Hc; rewrite ?length_drop, ?length_app in Hc; simpl in Hc;
    [rewrite drop_drop|]; f_equal; rewrite length_app; simpl; lia.
Qed.

Lemma array_of_with_array_eq w r a : array_of (with_array r a w) r = a.
Proof. unfold array_of. simpl. by rewrite lookup_insert_eq. Qed.

Lemma setCode_eq c w :
  setCode c w =
  (Ok tt, with_state (set_code_field (sw_state w) c (sw_now w))
            (if String.eqb (currentCode (sw_state w)) "" then w
             else with_array (history (sw_state w))
                    (push_capped (array_of w (history (sw_state w))) (currentCode (sw_state w))) w)).
Proof. unfold setCode. st_unfold. simpl. by destruct (String.eqb _ _). Qed.

Lemma wf_run_op o w : state_wf w -> state_wf (run_op o w).
Proof.
  intros (Hh & Hl & Hn). destruct o; simpl.
  - rewrite setCode_eq. simpl. destruct (String.eqb _ _); [done|].
    split_and!; simpl.
    + by rewrite lookup_insert_eq.
    + unfold array_of at 1. simpl. rewrite lookup_insert_eq. simpl. by apply push_capped_length.
    + intros r. destruct (decide (r = history (sw_state w))) as [->|Hne];
        [intros _; by apply Hn|rewrite lookup_insert_ne by done; apply Hn].
  - unfold setBpm. st_unfold. done.
  - unfold setPlaying. st_unfold. done.
  - unfold undo. st_unfold. simpl. destruct (last _) eqn:Hlast; simpl; [|done].
    split_and!; simpl.
    + by rewrite lookup_insert_eq.
    + unfold array_of at 1. simpl. rewrite lookup_insert_eq. simpl. rewrite removelast_firstn_len, length_firstn. lia.
    + intros r. destruct (decide (r = history (sw_state w))) as [->|Hne];
        [intros _; by apply Hn|rewrite lookup_insert_ne by done; apply Hn].
  - unfold clearHistory. st_unfold. simpl. split_and!; simpl.
    + by rewrite lookup_insert_eq.
    + unfold array_of. simpl. rewrite lookup_insert_eq. simpl. unfold history_cap. lia.
    + intros r. destruct (decide (r = sw_next w)) as [->|Hne]; [lia|].
      rewrite lookup_insert_ne by done. intros Hr. apply Hn in Hr. lia.
  - unfold resetState. st_unfold. simpl. split_and!; simpl.
    + by rewrite lookup_insert_eq.
    + unfold array_of. simpl. rewrite lookup_insert_eq. simpl. unfold history_cap. lia.
    + intros r. destruct (decide (r = sw_next w)) as [->|Hne]; [lia|].
      rewrite lookup_insert_ne by done. intros Hr. apply Hn in Hr. lia.
  - done.
Qed.

Lemma wf_initial b t : state_wf (initial_world b t).
Proof.
  split_and!; simpl; [done|unfold array_of, history_cap; simpl; rewrite lookup_singleton_eq; simpl; lia|].
  intros r [x Hx]. destruct (decide (r = 0)) as [->|Hne]; [lia|].
  by rewrite lookup_singleton_ne in Hx.
Qed.

(** ** Behaviour of state.js *)

(** C3. Bounds: whatever sequence of calls and clock ticks follows the module's
    loading, the history array holds at most 50 entries. *)
Theorem history_bounded os b t :
  length (array_of (run_ops os (initial_world b t))
            (history (sw_state (run_ops os (initial_world b t))))) <= history_cap.
Proof.
  assert (H : forall w, state_wf w -> state_wf (run_ops os w)).
  { induction os as [|o os IH]; intros w Hw; [done|]. simpl. by apply IH, wf_run_op. }
  apply H, wf_initial.
Qed.

Lemma lastn_length_le {A} n (l : list A) : length (lastn n l) <= n.
Proof. unfold lastn. rewrite length_drop. lia. Qed.

Lemma setCode_state c w : sw_state (snd (setCode c w)) = set_code_field (sw_state w) c (sw_now w).
Proof. rewrite setCode_eq. simpl. by destruct (String.eqb (currentCode (sw_state w)) ""). Qed.

Lemma setCode_array c w :
  array_of (snd (setCode c w)) (history (sw_state w)) =
  if String.eqb (currentCode (sw_state w)) "" then array_of w (history (sw_state w))
  else push_capped (array_of w (history (sw_state w))) (currentCode (sw_state w)).
Proof.
  rewrite setCode_eq. simpl. destruct (String.eqb (currentCode (sw_state w)) ""); [done|].
  unfold array_of at 1. simpl. by rewrite lookup_insert_eq.
Qed.

Lemma run_setCodes_history codes w h :
  array_of w (history (sw_state w)) = lastn history_cap h ->
  array_of (run_ops (map OSetCode codes) w) (history (sw_state (run_ops (map OSetCode codes) w))) =
  lastn history_cap (h ++ abstract_history (currentCode (sw_state w)) codes).
Proof.
  revert w h. induction codes as [|c cs IH]; intros w h Hh; simpl.
  - by rewrite app_nil_r.
  - rewrite (IH (snd (setCode c w)) (h ++ if String.eqb (currentCode (sw_state w)) "" then []
                                          else [currentCode (sw_state w)])).
    + rewrite setCode_state. simpl. by rewrite <- app_assoc.
    + rewrite setCode_state. simpl. rewrite setCode_array, Hh.
      destruct (String.eqb (currentCode (sw_state w)) ""); [by rewrite app_nil_r|].
      apply lastn_push; [apply lastn_length_le|done].
Qed.

(** C6. Refinement: after any sequence of [setCode] calls from the module's
    initial state, the history array is the last 50 entries of the
    abstract, unbounded history of every previous non-empty code. *)
Theorem setCode_history_window codes b t :
  let w := run_ops (map OSetCode codes) (initial_world b t) in
  array_of w (history (sw_state w)) = lastn history_cap (abstract_history "" codes).
Proof.
  simpl. rewrite (run_setCodes_history codes (initial_world b t) []); [done|].
  unfold array_of. simpl. by rewrite lookup_singleton_eq.
Qed.

(** [undo] returns the last history entry ([null] when there is none)
    and leaves the state object, [currentCode] included, unchanged. *)
Lemma undo_result w :
  fst (undo w) = Ok (last (array_of w (history (sw_state w)))) /\
  sw_state (snd (undo w)) = sw_state w /\
  array_of (snd (undo w)) (history (sw_state w)) = removelast (array_of w (history (sw_state w))).
Proof.
  unfold undo. st_unfold. simpl. destruct (last _) eqn:Hl; simpl.
  - split_and!; [done|done|]. unfold array_of at 1. simpl. by rewrite lookup_insert_eq.
  - split_and!; [done|done|]. destruct (array_of w _) as [|x a] eqn:Ha; [done|].
    destruct (exists_last (l:=x :: a)) as (l' & y & Hy); [done|].
    rewrite Hy, last_snoc in Hl. discriminate.
Qed.

(** C26. Undo does not walk back: restoring the undone code with [setCode]
    pushes the code it replaces, so the next [undo] returns that code
    again instead of the entry before. *)
Theorem undo_restore_undo w a x :
  String.eqb (currentCode (sw_state w)) "" = false ->
  array_of w (history (sw_state w)) = a ++ [x] ->
  String.eqb x "" = false -> length (a ++ [x]) <= history_cap ->
  let w1 := snd (undo w) in
  let w2 := snd (setCode x w1) in
  fst (undo w) = Ok (Some x) /\ fst (undo w2) = Ok (Some (currentCode (sw_state w))).
Proof.
  intros Hc Ha Hx Hlen. simpl.
  destruct (undo_result w) as (Hr1 & Hs1 & Ha1). rewrite Ha, last_snoc in Hr1.
  split; [done|].
  destruct (undo_result (snd (setCode x (snd (undo w))))) as (Hr2 & _ & _). rewrite Hr2.
  rewrite setCode_state. simpl. rewrite setCode_array, Hs1, Hc, Ha1, Ha, removelast_last.
  unfold push_capped. rewrite length_app in Hlen. simpl in Hlen.
  case_decide as Hd; [rewrite length_app in Hd; simpl in Hd; lia|]. by rewrite last_snoc.
Qed.

(** C27. [getState()] is a shallow copy: the snapshot's [history] is the live
    array, so a later [setCode] changes what the snapshot holds. *)
Theorem getState_shares_history w c :
  String.eqb (currentCode (sw_state w)) "" = false ->
  let snap := sw_state w in
  fst (getState w) = Ok snap /\
  array_of (snd (setCode c w)) (history snap) =
    push_capped (array_of w (history snap)) (currentCode snap).
Proof. intros Hc. simpl. split; [done|]. by rewrite setCode_array, Hc. Qed.

(** ** The theorems at a sample state *)

Lemma undo_restore_undo_witness :
  fst (undo world_two_codes) = Ok (Some "a") /\
  fst (undo (snd (setCode "a" (snd (undo world_two_codes))))) = Ok (Some "b").
Proof.
  apply (undo_restore_undo world_two_codes [] "a");
    [vm_compute; reflexivity|vm_compute; reflexivity|vm_compute; reflexivity|unfold history_cap; simpl; lia].
Defined.

Lemma getState_shares_history_witness :
  fst (getState world_two_codes) = Ok (sw_state world_two_codes) /\
  array_of (snd (setCode "c" world_two_codes)) (history (sw_state world_two_codes)) =
    push_capped (array_of world_two_codes (history (sw_state world_two_codes)))
      (currentCode (sw_state world_two_codes)).
Proof. apply getState_shares_history. vm_compute. reflexivity. Defined.

End PatternState.
