(* ===== verification/Control.v ===== *)
(** * Control: the playback tool of [src/src/tools/control.js]

    Each tool calls the bridge (strudel.js, over browser.js's [getPage])
    and then mirrors the outcome into state.js; a rejection of the bridge
    is rethrown as it is ([catch (error) { ...; throw error; }]).  The
    combined world pairs the session world with the state module's. *)

From S2P Require Import Prelude Session Tempo Bridge PatternState.
From stdpp Require Import base strings gmap list.
From Stdlib Require Import PrimFloat.

Open Scope st_scope.

Module Control.
Import Session Bridge PatternState.

Record CWorld := mkCWorld { cw_browser : World; cw_state : SWorld }.

Abbreviation CM := (ST CWorld).

(** Run an operation of browser.js/strudel.js, or of state.js, in the
    combined world. *)
Definition lift_b {A} (m : M A) : CM A :=
  fun cw => let '(r, w') := m (cw_browser cw) in (r, mkCWorld w' (cw_state cw)).
Definition lift_s {A} (m : SM A) : CM A :=
  fun cw => let '(r, s') := m (cw_state cw) in (r, mkCWorld (cw_browser cw) s').

(** The [message] fields; the tempo one is the template
    [`Tempo set to ${bpm} BPM`]. *)
Inductive Message := MsgStopped | MsgStarted | MsgTempoSet (bpm : float).

Record PlaybackReply := mkPlaybackReply { pb_success : bool; pb_playing : bool; pb_message : Message }.
Record TempoReply := mkTempoReply {
  tp_success : bool; tp_bpm : float; tp_cps : float; tp_message : Message }.
Record CurrentReply := mkCurrentReply {
  cur_success : bool; cur_code : string; cur_bpm : float; cur_playing : bool;
  cur_lastModified : option string }.

(** [stop] (lines 16-34). *)
Definition stop : CM PlaybackReply :=
  lift_b stopPlayback ;;;
  lift_s (setPlaying false) ;;;
  ret (mkPlaybackReply true false MsgStopped).

(** [start] (lines 41-59). *)
Definition start : CM PlaybackReply :=
  lift_b startPlayback ;;;
  lift_s (setPlaying true) ;;;
  ret (mkPlaybackReply true true MsgStarted).

(** [setTempo] (lines 67-86). *)
Definition setTempo (bpm : float) : CM TempoReply :=
  let* result := lift_b (Bridge.setTempo bpm) in
  lift_s (setBpm bpm) ;;;
  ret (mkTempoReply true bpm (tr_cps result) (MsgTempoSet bpm)).

(** [getCurrent] (lines 93-108): read from state.js only. *)
Definition getCurrent : CM CurrentReply :=
  let* s := lift_s getState in
  ret (mkCurrentReply true (currentCode s) (currentBpm s) (isPlaying s) (lastModified s)).

(** ** Behaviour of control.js *)

Lemma lift_b_eq {A} (m : M A) cw :
  lift_b m cw = (fst (m (cw_browser cw)), mkCWorld (snd (m (cw_browser cw))) (cw_state cw)).
Proof. unfold lift_b. by destruct (m (cw_browser cw)). Qed.

Lemma lift_s_eq {A} (m : SM A) cw :
  lift_s m cw = (fst (m (cw_state cw)), mkCWorld (cw_browser cw) (snd (m (cw_state cw)))).
Proof. unfold lift_s. by destruct (m (cw_state cw)). Qed.

Lemma stop_eq cw :
  stop cw =
  match stopPlayback (cw_browser cw) with
  | (Ok _, w1) => (Ok (mkPlaybackReply true false MsgStopped),
                   mkCWorld w1 (snd (setPlaying false (cw_state cw))))
  | (Err e, w1) => (Err e, mkCWorld w1 (cw_state cw))
  end.
Proof.
  unfold stop, st_bind at 1. rewrite lift_b_eq.
  destruct (stopPlayback (cw_browser cw)) as [[r0|e0] w1]; simpl; [|done].
  unfold st_bind. by rewrite lift_s_eq.
Qed.

Lemma setTempo_eq cw bpm :
  setTempo bpm cw =
  match Bridge.setTempo bpm (cw_browser cw) with
  | (Ok r, w1) => (Ok (mkTempoReply true bpm (tr_cps r) (MsgTempoSet bpm)),
                   mkCWorld w1 (snd (setBpm bpm (cw_state cw))))
  | (Err e, w1) => (Err e, mkCWorld w1 (cw_state cw))
  end.
Proof.
  unfold setTempo, st_bind at 1. rewrite lift_b_eq.
  destruct (Bridge.setTempo bpm (cw_browser cw)) as [[r0|e0] w1]; simpl; [|done].
  unfold st_bind. by rewrite lift_s_eq.
Qed.

(** The cps [Bridge.setTempo] reports is [Tempo.bpmToCps bpm]. *)
Lemma bridge_setTempo_cps bpm w r w' :
  Bridge.setTempo bpm w = (Ok r, w') -> tr_cps r = Tempo.bpmToCps bpm.
Proof.
  unfold Bridge.setTempo, st_rethrow, st_catch, st_bind at 1.
  destruct (provide_page w) as [[p|e] w2]; [|done].
  unfold st_bind at 1. destruct (drv_evaluate _ _ _) as [[v|e] w3]; [|done].
  simpl. by intros [= <- _].
Qed.

(** C29. [stop] mirrors a successful stop into state.js; a failed one is
    rethrown with the bridge's message and leaves state.js untouched. *)
Theorem stop_mirrors cw :
  (forall r cw', stop cw = (Ok r, cw') ->
     pb_playing r = false /\ isPlaying (sw_state (cw_state cw')) = false) /\
  (forall e cw', stop cw = (Err e, cw') ->
     cw_state cw' = cw_state cw /\ exists m, e = stop_prefix +:+ m).
Proof.
  rewrite stop_eq. destruct (stopPlayback (cw_browser cw)) as [[r0|e0] w1] eqn:Hs.
  - split; [|done]. intros r cw' [= <- <-]. by split.
  - split; [done|]. intros e cw' [= <- <-]. split; [done|].
    by apply (st_rethrow_Err_inv _ _ _ _ _ Hs).
Qed.

(** C28. [setTempo] mirrors the tempo into state.js and reports the cps the
    page received, [Tempo.bpmToCps bpm]; a failed call is rethrown with
    the bridge's message and leaves state.js untouched. *)
Theorem setTempo_mirrors cw bpm :
  (forall r cw', setTempo bpm cw = (Ok r, cw') ->
     tp_cps r = Tempo.bpmToCps bpm /\ currentBpm (sw_state (cw_state cw')) = bpm /\
     lastModified (sw_state (cw_state cw')) = Some (sw_now (cw_state cw))) /\
  (forall e cw', setTempo bpm cw = (Err e, cw') ->
     cw_state cw' = cw_state cw /\ exists m, e = tempo_prefix +:+ m).
Proof.
  rewrite setTempo_eq. destruct (Bridge.setTempo bpm (cw_browser cw)) as [[r0|e0] w1] eqn:Hs.
  - split; [|done]. intros r cw' [= <- <-]. simpl.
    split_and!; [by apply (bridge_setTempo_cps bpm (cw_browser cw) r0 w1)|done|done].
  - split; [done|]. intros e cw' [= <- <-]. split; [done|].
    by apply (st_rethrow_Err_inv _ _ _ _ _ Hs).
Qed.

(** C30. state.js's [isPlaying] only mirrors what the tools did: after a
    successful [start] on a page that shows no [data-playing] marker,
    [getCurrent] reports [playing: true] while the bridge's [isPlaying]
    reads [false] from the page. *)
Theorem playing_mirror_diverges cw p d :
  w_page (cw_browser cw) = Some p -> page_alive (cw_browser cw) p = true ->
  w_dom (cw_browser cw) !! p = Some d -> dom_playing d = false ->
  exists cw1 r c w2,
    start cw = (Ok r, cw1) /\
    getCurrent cw1 = (Ok c, cw1) /\ cur_playing c = true /\
    Bridge.isPlaying (cw_browser cw1) = (Ok false, w2).
Proof.
  intros Hp Ha Hd Hm.
  destruct (startPlayback_world (cw_browser cw) p Hp Ha) as (w1 & Hs & Hp1 & Hd1 & Ha1).
  rewrite <- Hp1 in Hp. rewrite <- Hd1 in Hd.
  destruct (isPlaying_marker w1 p d Hp Ha1 Hd) as (w2 & Hi). rewrite Hm in Hi.
  set (s1 := snd (setPlaying true (cw_state cw))).
  exists (mkCWorld w1 s1). eexists _, _, w2. split_and!; [|reflexivity|reflexivity|exact Hi].
  unfold start. unfold st_bind at 1. rewrite lift_b_eq, Hs. reflexivity.
Qed.

(** ** The theorem at a sample world *)

Lemma playing_mirror_diverges_witness :
  exists cw1 r c w2,
    start (mkCWorld world_running (initial_world 120%float "2025-01-01T00:00:00.000Z")) =
      (Ok r, cw1) /\
    getCurrent cw1 = (Ok c, cw1) /\ cur_playing c = true /\
    Bridge.isPlaying (cw_browser cw1) = (Ok false, w2).
Proof.
  apply (playing_mirror_diverges _ 1 (strudel_dom ""));
    [vm_compute; reflexivity..].
Defined.

End Control.
