(* ===== verification/System.v ===== *)
(** * System: every operation of the program and of its environment

    A step of the whole program is one exported operation of browser.js,
    strudel.js, state.js or tools/control.js, or an event of the
    environment (a page stops answering, the clock moves).  Calls run one
    at a time: the model interleaves whole operations, which is what the
    single JavaScript event loop does when no caller awaits two of them at
    once. *)

From S2P Require Import Prelude Session Tempo Bridge PatternState Control.
From stdpp Require Import base strings gmap list relations.
From Stdlib Require Import PrimFloat.

Module System.
Import Session Bridge PatternState Control.

Inductive SysOp : Type :=
  | SLaunch | SGetPage | SClose | SRestart | SIsAlive
  | SExecute (code : string) | SStopPlayback | SStartPlayback | SGetCode | SIsPlaying
  | SBridgeTempo (bpm : float)
  | SStateOp (o : StateOp)
  | SToolStop | SToolStart | SToolTempo (bpm : float) | SToolGetCurrent.

Definition on_browser {A} (m : M A) (cw : CWorld) : CWorld := snd (lift_b m cw).
Definition on_state (o : StateOp) (cw : CWorld) : CWorld :=
  mkCWorld (cw_browser cw) (run_op o (cw_state cw)).

Definition run_sys (o : SysOp) (cw : CWorld) : CWorld :=
  match o with
  | SLaunch => on_browser launchBrowser cw
  | SGetPage => on_browser getPage cw
  | SClose => on_browser closeBrowser cw
  | SRestart => on_browser restartBrowser cw
  | SIsAlive => on_browser isBrowserAlive cw
  | SExecute c => on_browser (executePattern c) cw
  | SStopPlayback => on_browser stopPlayback cw
  | SStartPlayback => on_browser startPlayback cw
  | SGetCode => on_browser Bridge.getCurrentCode cw
  | SIsPlaying => on_browser Bridge.isPlaying cw
  | SBridgeTempo b => on_browser (Bridge.setTempo b) cw
  | SStateOp o => on_state o cw
  | SToolStop => snd (stop cw)
  | SToolStart => snd (start cw)
  | SToolTempo b => snd (Control.setTempo b cw)
  | SToolGetCurrent => snd (getCurrent cw)
  end.

(** One step of the program or of its environment. *)
Inductive sys_step : CWorld -> CWorld -> Prop :=
  | step_op o cw : sys_step cw (run_sys o cw)
  | step_crash p cw :
      is_Some (w_owner (cw_browser cw) !! p) ->
      sys_step cw (mkCWorld (crash_w p (cw_browser cw)) (cw_state cw)).

(** The process as started: no session, the state module as loaded. *)
Definition sys_init (cfg : Config) (env : nat -> LaunchOutcome) (bpm : float) (now : string)
    : CWorld :=
  mkCWorld (init_world cfg env) (initial_world bpm now).

Definition sys_reachable (cfg : Config) (env : nat -> LaunchOutcome) (bpm : float)
    (now : string) (cw : CWorld) : Prop :=
  rtc sys_step (sys_init cfg env bpm now) cw.

Definition sys_wf (cw : CWorld) : Prop := session_wf (cw_browser cw) /\ state_wf (cw_state cw).

(** ** Invariant *)

Lemma lift_b_wf {A} (m : M A) :
  st_preserves session_wf m -> st_preserves sys_wf (lift_b m).
Proof. intros Hm cw [Hb Hs]. rewrite lift_b_eq. split; [by apply Hm|done]. Qed.

Lemma lift_s_wf {A} (m : SM A) :
  st_preserves state_wf m -> st_preserves sys_wf (lift_s m).
Proof. intros Hm cw [Hb Hs]. rewrite lift_s_eq. split; [done|by apply Hm]. Qed.

(** A call of state.js whose effect is the one [run_op o] gives. *)
Lemma state_call_wf {A} (m : SM A) o :
  (forall w, snd (m w) = run_op o w) -> st_preserves state_wf m.
Proof. intros Hm w Hw. rewrite Hm. by apply wf_run_op. Qed.

Lemma tools_wf bpm :
  st_preserves sys_wf stop /\ st_preserves sys_wf start /\
  st_preserves sys_wf (Control.setTempo bpm) /\ st_preserves sys_wf getCurrent.
Proof.
  destruct (wf_bridge_ops "" bpm) as (_ & Hstop & Hstart & _ & _ & Htempo).
  unfold stop, start, Control.setTempo, getCurrent.
  split_and!; st_preserves_t;
    first [ by apply lift_b_wf
          | apply lift_s_wf;
            first [ by apply (state_call_wf _ (OSetPlaying false))
                  | by apply (state_call_wf _ (OSetPlaying true))
                  | by apply (state_call_wf _ (OSetBpm bpm))
                  | by apply (state_call_wf _ (OTick "")) ] ].
Qed.

Lemma sys_step_wf cw cw' : sys_wf cw -> sys_step cw cw' -> sys_wf cw'.
Proof.
  intros Hwf Hs. destruct Hs as [o cw|p cw Hp].
  - destruct (tools_wf 0%float) as (Hstop & Hstart & _ & Hcur).
    destruct o; unfold run_sys, on_browser;
      try (apply lift_b_wf; [|done]);
      [apply wf_launchBrowser|apply wf_getPage|apply wf_closeBrowser|apply wf_restartBrowser
      |apply wf_isBrowserAlive|apply (wf_bridge_ops code 0%float)|apply (wf_bridge_ops "" 0%float)
      |apply (wf_bridge_ops "" 0%float)|apply (wf_bridge_ops "" 0%float)
      |apply (wf_bridge_ops "" 0%float)|apply (wf_bridge_ops "" bpm)| | | | |].
    + destruct Hwf as [Hb Hst]. split; [done|]. by apply wf_run_op.
    + by apply Hstop.
    + by apply Hstart.
    + by apply (proj1 (proj2 (proj2 (tools_wf bpm)))).
    + by apply Hcur.
  - destruct Hwf as [Hb Hst]. split; [by apply wf_crash|done].
Qed.

Lemma sys_init_wf cfg env bpm now : sys_wf (sys_init cfg env bpm now).
Proof.
  split; [|apply wf_initial].
  split; [split_and!|split]; simpl; intros *;
    rewrite ?lookup_empty; try set_solver; by intros [].
Qed.

(** C7. Every state the program reaches from its start, through any
    sequence of calls to the tools, the bridge, the session and the state
    module, interleaved with pages that stop answering, satisfies both
    invariants: the session's page belongs to the current browser, every
    allocated page is owned and every identifier is below the allocator;
    state.js's history array is allocated, holds at most 50 entries and
    every array reference is below the allocator. *)
Theorem reachable_sys_wf cfg env bpm now cw :
  sys_reachable cfg env bpm now cw -> sys_wf cw.
Proof.
  unfold sys_reachable. intros Hr. generalize (sys_init_wf cfg env bpm now).
  induction Hr as [|x y z Hxy _ IH]; [done|]. intros Hx. apply IH.
  by eapply sys_step_wf.
Qed.

(** ** The theorem at a sample run *)

Lemma reachable_sys_wf_witness :
  sys_wf (run_sys SToolStart (run_sys (SExecute "note c3")
    (sys_init default_config env_ok 120%float "2025-01-01T00:00:00.000Z"))).
Proof.
  apply (reachable_sys_wf default_config env_ok 120%float "2025-01-01T00:00:00.000Z").
  eapply rtc_l; [apply step_op|]. eapply rtc_l; [apply step_op|]. apply rtc_refl.
Defined.

End System.
